(** * caffe2/core/workspace.cc: a shallow embedding of [caffe2::Workspace]

    The workspace owns named blobs and named nets through [unique_ptr]s,
    optionally reads blobs through a non-owning pointer to a parent
    workspace, lazily builds a thread pool, and prints a blob-size report.

    Objects live in typed heaps addressed by [addr]; a raw pointer is an
    [option addr] ([None] is [nullptr]).  Methods are computations in a
    state-and-exception monad over the [World]; their first argument is
    the [this] pointer.  The methods that follow the parent pointer take a
    bound on the length of the chain.  Calls are sequential: the mutex of
    [GetThreadPool] has no counterpart here.  [RunPlan] only forwards to
    plan_executor.h and is left out.  [std::sort] is a parameter of the
    blob-size report; the implementation of libstdc++ is embedded in
    [Libstdcxx]. *)

From stdpp Require Import gmap strings list fin_maps pretty sorting.
From Stdlib Require Import ZArith.

Local Open Scope string_scope.
Local Open Scope list_scope.

(** ** Plain data *)

Definition addr := nat.

(** glog severities used by the file; [VLOG1] is [VLOG(1)]. *)
Inductive Severity := INFO | WARNING | ERROR | VLOG1.

(** The two fields of the protobuf message [NetDef] that the workspace
    reads, as optional fields with the generated accessors [has_name()],
    [name()] and [type()] (an absent string field reads as the empty
    string). *)
Record NetDef := { name_ : option string; type_ : option string }.

Definition has_name (d : NetDef) : bool :=
  match name_ d with Some _ => true | None => false end.
Definition name (d : NetDef) : string := default "" (name_ d).
Definition type (d : NetDef) : string := default "" (type_ d).

(** [ThreadPool(int numThreads)]: the pool is characterised by the
    argument its constructor received. *)
Record ThreadPool := { pool_numThreads : Z }.

Inductive Platform := CAFFE2_ANDROID | CAFFE2_IOS.

(** Process-wide configuration read by [GetThreadPool]: the two gflags,
    the build platform and the value of
    [std::thread::hardware_concurrency()] (an [unsigned]). *)
Record Config := {
  platform : Platform;
  FLAGS_caffe2_threadpool_android_cap : Z;
  FLAGS_caffe2_threadpool_ios_cap : Z;
  hardware_concurrency : Z
}.

(** The double printed in the percentage column:
    [cumtotal > 0 ? 100.0 * double(first) / cumtotal : 0.0]. *)
Inductive Percentage :=
| PctZero
| PctOf (capacity cumtotal : N).

(** Observable actions, in the order in which they happen. *)
Inductive Event :=
| Log (sev : Severity) (msg : string)
| LogBlobSize (blob_name : string) (shape : list Z) (capacity : N)
              (pct : Percentage)
| NetDestroyed (p : addr)
| NetConstruct (def : NetDef) (ws : addr)
| ThreadPoolConstruct (numThreads : Z).

(** [CAFFE_ENFORCE] and [CAFFE_THROW] both throw [EnforceNotMet]. *)
Inductive Exception := EnforceNotMet (msg : string).

Inductive Outcome (A : Type) :=
| Ret (a : A)
| Throw (e : Exception)
| Fatal       (* a failed CHECK: the process aborts *)
| Undefined   (* a null or dangling pointer was dereferenced *)
| OutOfFuel.  (* the recursion bound of the model was reached *)
Arguments Ret {A} a.
Arguments Throw {A} e.
Arguments Fatal {A}.
Arguments Undefined {A}.
Arguments OutOfFuel {A}.

Definition quote : string := String (Ascii.ascii_of_nat 34) EmptyString.

(** What a shape function reports: its result and the final values of its
    two reference parameters [shares_data] and [capacity]. *)
Record ShapeInfo := {
  shape : list Z;
  shares_data : bool;
  capacity : N
}.

(** The members of [Workspace]; an owning pointer holds the address of the
    object it owns. *)
Record Workspace := {
  blob_map_ : gmap string addr;          (* name -> unique_ptr<Blob> *)
  net_map_ : gmap string (option addr);  (* name -> unique_ptr<NetBase> *)
  shared_ : option addr;                 (* const Workspace* *)
  thread_pool_ : option addr             (* unique_ptr<ThreadPool> *)
}.

Definition set_blob_map_ (m : gmap string addr) (ws : Workspace) : Workspace :=
  {| blob_map_ := m; net_map_ := net_map_ ws; shared_ := shared_ ws;
     thread_pool_ := thread_pool_ ws |}.
Definition set_net_map_ (m : gmap string (option addr)) (ws : Workspace) : Workspace :=
  {| blob_map_ := blob_map_ ws; net_map_ := m; shared_ := shared_ ws;
     thread_pool_ := thread_pool_ ws |}.
Definition set_thread_pool_ (p : option addr) (ws : Workspace) : Workspace :=
  {| blob_map_ := blob_map_ ws; net_map_ := net_map_ ws; shared_ := shared_ ws;
     thread_pool_ := p |}.

(** ** The objects the workspace handles

    [Blob], [NetBase], the type identifier of a blob's content and the raw
    pointer to it are defined in other files; the workspace stores them and
    passes them on. *)
Class ObjectTypes := {
  Blob : Type;
  NetBase : Type;
  CaffeTypeId : Type;
  RawPointer : Type
}.

Section State.

Context {types : ObjectTypes}.

Record World := {
  workspaces : gmap addr Workspace;
  blobs : gmap addr Blob;
  nets : gmap addr NetBase;
  pools : gmap addr ThreadPool;
  config : Config;
  events : list Event
}.

Definition set_workspaces (f : gmap addr Workspace -> gmap addr Workspace)
    (w : World) : World :=
  {| workspaces := f (workspaces w); blobs := blobs w; nets := nets w;
     pools := pools w; config := config w; events := events w |}.
Definition set_blobs (f : gmap addr Blob -> gmap addr Blob) (w : World) : World :=
  {| workspaces := workspaces w; blobs := f (blobs w); nets := nets w;
     pools := pools w; config := config w; events := events w |}.
Definition set_nets (f : gmap addr NetBase -> gmap addr NetBase) (w : World) : World :=
  {| workspaces := workspaces w; blobs := blobs w; nets := f (nets w);
     pools := pools w; config := config w; events := events w |}.
Definition set_pools (f : gmap addr ThreadPool -> gmap addr ThreadPool)
    (w : World) : World :=
  {| workspaces := workspaces w; blobs := blobs w; nets := nets w;
     pools := f (pools w); config := config w; events := events w |}.
Definition set_events (f : list Event -> list Event) (w : World) : World :=
  {| workspaces := workspaces w; blobs := blobs w; nets := nets w;
     pools := pools w; config := config w; events := f (events w) |}.

(** ** The monad *)

Definition M (A : Type) : Type := World -> Outcome A * World.

Definition ret {A} (a : A) : M A := fun w => (Ret a, w).

Definition bind {A B} (c : M A) (k : A -> M B) : M B :=
  fun w =>
    match c w with
    | (Ret a, w') => k a w'
    | (Throw e, w') => (Throw e, w')
    | (Fatal, w') => (Fatal, w')
    | (Undefined, w') => (Undefined, w')
    | (OutOfFuel, w') => (OutOfFuel, w')
    end.


Definition throw {A} (e : Exception) : M A := fun w => (Throw e, w).
Definition undefined {A} : M A := fun w => (Undefined, w).
Definition CHECK (cond : bool) : M unit :=
  fun w => if cond then (Ret tt, w) else (Fatal, w).
Definition out_of_fuel {A} : M A := fun w => (OutOfFuel, w).
Definition emit (ev : Event) : M unit :=
  fun w => (Ret tt, set_events (fun l => l ++ [ev]) w).
Definition LOG (sev : Severity) (msg : string) : M unit := emit (Log sev msg).
Definition CAFFE_THROW {A} (msg : string) : M A := throw (EnforceNotMet msg).
Definition CAFFE_ENFORCE (cond : bool) (msg : string) : M unit :=
  if cond then ret tt else throw (EnforceNotMet msg).

(** [*this] for a workspace pointer. *)
Definition get_ws (this : addr) : M Workspace :=
  fun w => match workspaces w !! this with
           | Some ws => (Ret ws, w)
           | None => (Undefined, w)
           end.
Definition put_ws (this : addr) (ws : Workspace) : M unit :=
  fun w => (Ret tt, set_workspaces (insert this ws) w).

End State.

Notation "x <- c ;; k" := (bind c (fun x => k))
  (at level 100, c at next level, right associativity).
Notation "c ;;; k" := (bind c (fun _ => k))
  (at level 100, right associativity).

(** ** Collaborators

    What workspace.cc calls and does not define: [Blob()], the net factory
    [caffe2::CreateNet] of net.h (which is handed the definition and the
    workspace, may act on whatever exists at the time of the call, and
    yields a new net object or null), the virtual [NetBase::Run()],
    [b->meta().id()],
    [b->GetRaw()], the registry behind [GetShapeCallFunction], and
    [std::sort] with the comparator of [PrintBlobSizes] (any implementation
    that meets the contract of the standard). *)
Class Collaborators `{ObjectTypes} := {
  Blob_default : Blob;
  caffe2_CreateNet : NetDef -> addr -> World -> option NetBase * World;
  NetBase_Run : NetBase -> World -> bool * World;
  Blob_meta_id : Blob -> CaffeTypeId;
  Blob_GetRaw : Blob -> RawPointer;
  GetShapeCallFunction : CaffeTypeId -> option (RawPointer -> ShapeInfo);
  std_sort : list (N * string) -> list (N * string)
}.

Section Operations.

Context {types : ObjectTypes} {collab : Collaborators}.

(** ** Net registry *)

(** [net_map_.erase(name)]: drops the entry; a non-null [unique_ptr]
    destroys the net it owns. *)
Definition net_map_erase (this : addr) (n : string) : M unit :=
  ws <- get_ws this ;;
  match net_map_ ws !! n with
  | None => ret tt
  | Some up =>
      put_ws this (set_net_map_ (delete n (net_map_ ws)) ws) ;;;
      match up with
      | None => ret tt
      | Some p =>
          emit (NetDestroyed p) ;;;
          (fun w => (Ret tt, set_nets (delete p) w))
      end
  end.

(** The call [caffe2::CreateNet(net_def, this)]: the returned raw pointer
    addresses a freshly allocated net, or is null. *)
Definition call_CreateNet (net_def : NetDef) (this : addr) : M (option addr) :=
  emit (NetConstruct net_def this) ;;;
  (fun w =>
     match caffe2_CreateNet net_def this w with
     | (None, w') => (Ret None, w')
     | (Some obj, w') =>
         let p := fresh (dom (nets w')) in
         (Ret (Some p), set_nets (insert p obj) w')
     end).

(** [net_map_[name] = unique_ptr<NetBase>(raw)].  The entry is fresh or was
    just erased, so the assignment destroys nothing. *)
Definition net_map_assign (this : addr) (n : string) (raw : option addr) : M unit :=
  ws <- get_ws this ;;
  put_ws this (set_net_map_ (<[n := raw]> (net_map_ ws)) ws).

(** [net_map_[name].get()]: [operator[]] default-inserts a null pointer
    for a missing key. *)
Definition net_map_index_get (this : addr) (n : string) : M (option addr) :=
  ws <- get_ws this ;;
  match net_map_ ws !! n with
  | Some up => ret up
  | None => put_ws this (set_net_map_ (<[n := None]> (net_map_ ws)) ws) ;;; ret None
  end.

Definition refuse_msg (n : string) : string :=
  "I respectfully refuse to overwrite an existing net of the same name "
    +:+ quote +:+ n +:+ quote
    +:+ ", unless you explicitly specify overwrite=true.".

Definition creation_error_msg (net_def : NetDef) : string :=
  "Error when creating the network."
    +:+ "Maybe net type: [" +:+ type net_def +:+ "] does not exist".

(** In [net_map_[name] = unique_ptr<NetBase>(caffe2::CreateNet(...))] the
    right operand is evaluated first, then the entry is looked up and
    assigned. *)
Definition CreateNet (this : addr) (net_def : NetDef) (overwrite : bool)
    : M (option addr) :=
  CAFFE_ENFORCE (has_name net_def) "Net definition should have a name." ;;;
  ws <- get_ws this ;;
  (if decide (is_Some (net_map_ ws !! name net_def)) then
     (if negb overwrite then CAFFE_THROW (refuse_msg (name net_def)) else ret tt) ;;;
     LOG VLOG1 "Deleting existing network of the same name." ;;;
     net_map_erase this (name net_def)
   else ret tt) ;;;
  LOG VLOG1 ("Initializing network " +:+ name net_def) ;;;
  raw <- call_CreateNet net_def this ;;
  net_map_assign this (name net_def) raw ;;;
  p <- net_map_index_get this (name net_def) ;;
  match p with
  | None =>
      LOG ERROR (creation_error_msg net_def) ;;;
      net_map_erase this (name net_def) ;;;
      ret None
  | Some _ => net_map_index_get this (name net_def)
  end.

Definition GetNet (this : addr) (n : string) : M (option addr) :=
  ws <- get_ws this ;;
  if decide (is_Some (net_map_ ws !! n)) then net_map_index_get this n
  else ret None.

Definition DeleteNet (this : addr) (n : string) : M unit :=
  ws <- get_ws this ;;
  if decide (is_Some (net_map_ ws !! n)) then net_map_erase this n
  else ret tt.

(** [net->Run()] through a raw pointer. *)
Definition call_Run (p : option addr) : M bool :=
  fun w =>
    match p with
    | None => (Undefined, w)
    | Some a =>
        match nets w !! a with
        | None => (Undefined, w)
        | Some obj => let '(b, w') := NetBase_Run obj w in (Ret b, w')
        end
    end.

Definition RunNet (this : addr) (n : string) : M bool :=
  ws <- get_ws this ;;
  if decide (is_Some (net_map_ ws !! n)) then
    p <- net_map_index_get this n ;;
    call_Run p
  else
    LOG ERROR ("Network " +:+ n +:+ " does not exist yet.") ;;;
    ret false.

(** ** Blob store *)

(** Keys of a map in the order in which a range-for visits its entries
    (the order of the container, which workspace.h chooses). *)
Definition keys {V} (m : gmap string V) : list string := (map_to_list m).*1.

Definition LocalBlobs (this : addr) : M (list string) :=
  ws <- get_ws this ;;
  ret (keys (blob_map_ ws)).

Fixpoint Blobs (fuel : nat) (this : addr) : M (list string) :=
  match fuel with
  | O => out_of_fuel
  | S fuel' =>
      ws <- get_ws this ;;
      let names := keys (blob_map_ ws) in
      match shared_ ws with
      | Some sh =>
          shared_blobs <- Blobs fuel' sh ;;
          ret (names ++ shared_blobs)
      | None => ret names
      end
  end.

(** Modelled from the spec: [Workspace::HasBlob] is declared inline in
    workspace.h, which is not part of the sources.  [GetBlob] asks its parent
    [HasBlob] before it delegates to the parent, and the lookup is described
    as "if a parent exists and has the name, delegates to the parent's
    lookup (recursively, following the parent chain)": a workspace has a
    name when it owns it or when its parent has it.  [CreateBlob] calls the
    same function. *)
Fixpoint HasBlob (fuel : nat) (this : addr) (n : string) : M bool :=
  match fuel with
  | O => out_of_fuel
  | S fuel' =>
      ws <- get_ws this ;;
      match blob_map_ ws !! n with
      | Some _ => ret true
      | None =>
          match shared_ ws with
          | Some sh => HasBlob fuel' sh n
          | None => ret false
          end
      end
  end.

Definition blob_not_found (n : string) : string :=
  "Blob " +:+ n +:+ " not in the workspace.".

(** Both overloads of [GetBlob]: the non-const one only casts. *)
Fixpoint GetBlob (fuel : nat) (this : addr) (n : string) : M (option addr) :=
  match fuel with
  | O => out_of_fuel
  | S fuel' =>
      ws <- get_ws this ;;
      match blob_map_ ws !! n with
      | Some p => ret (Some p)
      | None =>
          match shared_ ws with
          | Some sh =>
              has <- HasBlob fuel' sh n ;;
              if has then GetBlob fuel' sh n
              else LOG WARNING (blob_not_found n) ;;; ret None
          | None => LOG WARNING (blob_not_found n) ;;; ret None
          end
      end
  end.

(** [blob_map_[name] = unique_ptr<Blob>(new Blob())], reached only when
    [name] is not a key yet. *)
Definition blob_map_assign_new (this : addr) (n : string) : M unit :=
  fun w =>
    let p := fresh (dom (blobs w)) in
    (ws <- get_ws this ;;
     put_ws this (set_blob_map_ (<[n := p]> (blob_map_ ws)) ws))
      (set_blobs (insert p Blob_default) w).

Definition CreateBlob (fuel : nat) (this : addr) (n : string) : M (option addr) :=
  has <- HasBlob fuel this n ;;
  (if has then LOG VLOG1 ("Blob " +:+ n +:+ " already exists. Skipping.")
   else LOG VLOG1 ("Creating blob " +:+ n) ;;; blob_map_assign_new this n) ;;;
  GetBlob fuel this n.

Definition RemoveBlob (this : addr) (n : string) : M bool :=
  ws <- get_ws this ;;
  match blob_map_ ws !! n with
  | Some p =>
      LOG VLOG1 ("Removing blob " +:+ n +:+ " from this workspace.") ;;;
      put_ws this (set_blob_map_ (delete n (blob_map_ ws)) ws) ;;;
      (fun w => (Ret true, set_blobs (delete p) w))
  | None =>
      LOG VLOG1 ("Blob " +:+ n +:+ " not exists. Skipping.") ;;;
      ret false
  end.

(** ** Thread pool (CAFFE2_MOBILE builds) *)

(** [int numThreads = std::thread::hardware_concurrency()]: an [unsigned]
    converted to a 32-bit [int]. *)
Definition int_of_unsigned (u : Z) : Z :=
  let r := (u mod 2 ^ 32)%Z in
  if (r <? 2 ^ 31)%Z then r else (r - 2 ^ 32)%Z.

(** [bool applyCap = FLAGS_...]: an int flag read as a bool. *)
Definition applyCap (cfg : Config) : bool :=
  match platform cfg with
  | CAFFE2_ANDROID => negb (FLAGS_caffe2_threadpool_android_cap cfg =? 0)%Z
  | CAFFE2_IOS => negb (FLAGS_caffe2_threadpool_ios_cap cfg =? 0)%Z
  end.

Definition capped_numThreads (cap : bool) (numThreads : Z) : Z :=
  if cap then
    if (numThreads <=? 3)%Z then numThreads
    else if (numThreads <=? 5)%Z then 3%Z
    else Z.quot numThreads 2
  else numThreads.

(** [thread_pool_.reset(new ThreadPool(numThreads))] on an empty
    [thread_pool_]. *)
Definition thread_pool_reset_new (this : addr) (numThreads : Z) : M unit :=
  emit (ThreadPoolConstruct numThreads) ;;;
  (fun w =>
     let p := fresh (dom (pools w)) in
     (ws <- get_ws this ;;
      put_ws this (set_thread_pool_ (Some p) ws))
       (set_pools (insert p {| pool_numThreads := numThreads |}) w)).

(** The body of [GetThreadPool] under the lock. *)
Definition GetThreadPool (this : addr) : M (option addr) :=
  ws <- get_ws this ;;
  (match thread_pool_ ws with
   | Some _ => ret tt
   | None =>
       cfg <- (fun w => (Ret (config w), w)) ;;
       let numThreads := int_of_unsigned (hardware_concurrency cfg) in
       let numThreads := capped_numThreads (applyCap cfg) numThreads in
       LOG INFO ("Constructing thread pool with " +:+ pretty numThreads
                 +:+ " threads") ;;;
       thread_pool_reset_new this numThreads
   end) ;;;
  ws <- get_ws this ;;
  ret (thread_pool_ ws).

(** ** Blob size report *)

(** The comparator handed to [std::sort]. *)
Definition blob_size_comp (a b : N * string) : bool := (fst b <? fst a)%N.

Definition size_t_add (a b : N) : N := ((a + b) mod 2 ^ 64)%N.

(** [*b] for a blob pointer. *)
Definition get_blob (p : option addr) : M Blob :=
  fun w =>
    match p with
    | None => (Undefined, w)
    | Some a =>
        match blobs w !! a with
        | Some obj => (Ret obj, w)
        | None => (Undefined, w)
        end
    end.

(** The first loop: total the capacities and collect the pairs. *)
Fixpoint collect_sizes (fuel : nat) (this : addr) (names : list string)
    (cumtotal : N) (blob_sizes : list (N * string)) : M (N * list (N * string)) :=
  match names with
  | [] => ret (cumtotal, blob_sizes)
  | s :: rest =>
      b <- GetBlob fuel this s ;;
      obj <- get_blob b ;;
      match GetShapeCallFunction (Blob_meta_id obj) with
      | Some shape_fun =>
          let info := shape_fun (Blob_GetRaw obj) in
          let capacity := if shares_data info then 0%N else capacity info in
          collect_sizes fuel this rest (size_t_add cumtotal capacity)
                        (blob_sizes ++ [(capacity, s)])
      | None => collect_sizes fuel this rest cumtotal blob_sizes
      end
  end.

Definition percentage (cumtotal first : N) : Percentage :=
  if (0 <? cumtotal)%N then PctOf first cumtotal else PctZero.

(** The second loop: one line per collected pair. *)
Fixpoint print_sizes (fuel : nat) (this : addr) (cumtotal : N)
    (blob_sizes : list (N * string)) : M unit :=
  match blob_sizes with
  | [] => ret tt
  | sb :: rest =>
      b <- GetBlob fuel this (snd sb) ;;
      obj <- get_blob b ;;
      let shape_fun := GetShapeCallFunction (Blob_meta_id obj) in
      CHECK (bool_decide (is_Some shape_fun)) ;;;
      match shape_fun with
      | None => undefined
      | Some f =>
          let info := f (Blob_GetRaw obj) in
          emit (LogBlobSize (snd sb) (shape info) (fst sb)
                            (percentage cumtotal (fst sb))) ;;;
          print_sizes fuel this cumtotal rest
      end
  end.

Definition PrintBlobSizes (fuel : nat) (this : addr) : M unit :=
  blobs <- LocalBlobs this ;;
  r <- collect_sizes fuel this blobs 0%N [] ;;
  let cumtotal := fst r in
  let blob_sizes := std_sort (snd r) in
  LOG INFO "---- Workspace blobs: ---- " ;;;
  LOG INFO "name;current shape;capacity bytes;percentage" ;;;
  print_sizes fuel this cumtotal blob_sizes ;;;
  LOG INFO ("Total;;" +:+ pretty cumtotal +:+ ";100%").

(** ** Transient nets *)

Definition could_not_create_msg (net_def : NetDef) : string :=
  "Could not create net: " +:+ name net_def +:+ " of type " +:+ type net_def.

(** The destructor of a local [unique_ptr<NetBase>] at the end of its
    scope. *)
Definition destroy_net (net : option addr) : M unit :=
  match net with
  | None => ret tt
  | Some p =>
      emit (NetDestroyed p) ;;;
      (fun w => (Ret tt, set_nets (delete p) w))
  end.

Definition RunNetOnce (this : addr) (net_def : NetDef) : M bool :=
  net <- call_CreateNet net_def this ;;
  match net with
  | None => CAFFE_THROW (could_not_create_msg net_def)
  | Some _ =>
      ok <- call_Run net ;;
      if ok then destroy_net net ;;; ret true
      else
        LOG ERROR ("Error when running network " +:+ name net_def) ;;;
        destroy_net net ;;;
        ret false
  end.

(** ** Vocabulary of the properties *)

(** The world in which [CreateNet] calls the collaborator, for a named
    definition that is not refused: an existing entry for the name has been
    erased and its net destroyed, and the trace ends with the call. *)
Definition construction_state (this : addr) (net_def : NetDef) (w : World) : World :=
  let n := name net_def in
  let init (w0 : World) :=
    set_events (fun l => l ++ [NetConstruct net_def this])
      (set_events (fun l => l ++ [Log VLOG1 ("Initializing network " +:+ n)]) w0) in
  match workspaces w !! this with
  | None => w
  | Some ws =>
      match net_map_ ws !! n with
      | None => init w
      | Some up =>
          let w1 :=
            set_workspaces (insert this (set_net_map_ (delete n (net_map_ ws)) ws))
              (set_events
                 (fun l => l ++ [Log VLOG1 "Deleting existing network of the same name."])
                 w) in
          match up with
          | None => init w1
          | Some p =>
              init (set_nets (delete p) (set_events (fun l => l ++ [NetDestroyed p]) w1))
          end
      end
  end.

(** The net factory builds a net and may create blobs on the way; it does
    not register or delete nets itself, and it only adds to the trace. *)
Definition net_factory_keeps_registry : Prop :=
  forall net_def this w r w',
    caffe2_CreateNet net_def this w = (r, w') ->
    nets w' = nets w
    /\ (forall a ws, workspaces w !! a = Some ws ->
          exists ws', workspaces w' !! a = Some ws'
                      /\ net_map_ ws' = net_map_ ws)
    /\ exists tail, events w' = events w ++ tail.

(** The parent chain of a workspace is valid and has [d] workspaces. *)
Inductive parent_chain (w : World) : addr -> nat -> Prop :=
| chain_root this ws :
    workspaces w !! this = Some ws -> shared_ ws = None ->
    parent_chain w this 1
| chain_step this ws sh d :
    workspaces w !! this = Some ws -> shared_ ws = Some sh ->
    parent_chain w sh d ->
    parent_chain w this (S d).

(** What the shape function of the local blob named [s] reports, if the
    blob has one. *)
Definition shape_info (heap : gmap addr Blob) (ws : Workspace) (s : string)
    : option ShapeInfo :=
  match blob_map_ ws !! s with
  | None => None
  | Some p =>
      match heap !! p with
      | None => None
      | Some obj =>
          match GetShapeCallFunction (Blob_meta_id obj) with
          | None => None
          | Some f => Some (f (Blob_GetRaw obj))
          end
      end
  end.

Definition credited_capacity (info : ShapeInfo) : N :=
  if shares_data info then 0%N else capacity info.

(** The pairs collected by the first loop, in encounter order. *)
Definition credited (heap : gmap addr Blob) (ws : Workspace)
    (names : list string) : list (N * string) :=
  omap (fun s => match shape_info heap ws s with
                 | Some info => Some (credited_capacity info, s)
                 | None => None
                 end) names.

Definition total_capacity (sizes : list (N * string)) (c0 : N) : N :=
  fold_left (fun c e => size_t_add c (fst e)) sizes c0.

Definition report_line (heap : gmap addr Blob) (ws : Workspace) (cumtotal : N)
    (sb : N * string) : Event :=
  LogBlobSize (snd sb)
    (match shape_info heap ws (snd sb) with
     | Some info => shape info
     | None => []
     end)
    (fst sb) (percentage cumtotal (fst sb)).

(** The capacity and name columns of the per-blob lines of a trace. *)
Definition printed_sizes (evs : list Event) : list (N * string) :=
  omap (fun ev => match ev with
                  | LogBlobSize s _ c _ => Some (c, s)
                  | _ => None
                  end) evs.

Definition report_events (heap : gmap addr Blob) (ws : Workspace)
    (cumtotal : N) (ranked : list (N * string)) : list Event :=
  [Log INFO "---- Workspace blobs: ---- ";
   Log INFO "name;current shape;capacity bytes;percentage"]
    ++ map (report_line heap ws cumtotal) ranked
    ++ [Log INFO ("Total;;" +:+ pretty cumtotal +:+ ";100%")].

(** Every entry of the workspace's net map owns a live net, and no net is
    owned under two names. *)
Definition registry_owned (w : World) (this : addr) : Prop :=
  exists ws,
    workspaces w !! this = Some ws
    /\ (forall n up, net_map_ ws !! n = Some up ->
          exists p, up = Some p /\ is_Some (nets w !! p))
    /\ (forall n1 n2 p, net_map_ ws !! n1 = Some (Some p) ->
                        net_map_ ws !! n2 = Some (Some p) -> n1 = n2).

(** [a] is the workspace [this] or one of its ancestors. *)
Inductive on_chain (w : World) (this : addr) : addr -> Prop :=
| on_chain_self : on_chain w this this
| on_chain_parent a ws sh :
    on_chain w this a -> workspaces w !! a = Some ws -> shared_ ws = Some sh ->
    on_chain w this sh.

(** The sum of the capacity column, without wrap-around. *)
Definition sum_capacity (sizes : list (N * string)) : N :=
  foldr (fun e acc => (fst e + acc)%N) 0%N sizes.

End Operations.

(** ** One-shot operators

    [OperatorDef] is read through [type()] only; [CreateOperator] of
    operator.h and the virtual [OperatorBase::Run()] are further
    collaborators. *)
Record OperatorDef := { op_type_ : option string }.

Definition op_type (d : OperatorDef) : string := default "" (op_type_ d).

Class OperatorCollaborators `{ObjectTypes} := {
  OperatorBase : Type;
  CreateOperator : OperatorDef -> addr -> World -> option OperatorBase * World;
  OperatorBase_Run : OperatorBase -> World -> bool * World
}.

Section Operators.

Context {types : ObjectTypes} {ops : OperatorCollaborators}.

(** The operator lives in a local [unique_ptr] and is destroyed on every
    path out of the function. *)
Definition RunOperatorOnce (this : addr) (op_def : OperatorDef) : M bool :=
  op <- (fun w => let '(o, w') := CreateOperator op_def this w in (Ret o, w')) ;;
  match op with
  | None =>
      LOG ERROR ("Cannot create operator of type " +:+ op_type op_def) ;;;
      ret false
  | Some o =>
      ok <- (fun w => let '(b, w') := OperatorBase_Run o w in (Ret b, w')) ;;
      if ok then ret true
      else
        LOG ERROR ("Error when running operator " +:+ op_type op_def) ;;;
        ret false
  end.

End Operators.

(** * [std::sort] in libstdc++

    Which [std::sort] runs in [PrintBlobSizes] is decided by the C++ library
    the file is built with.  This is the one of libstdc++ (GCC 12,
    bits/stl_algo.h, with the heap routines of bits/stl_heap.h behind its
    depth limit): an introsort that leaves ranges of at most 16 elements
    unsorted, followed by one insertion sort.  The range is a list, an
    iterator is an index into it and a write is an update in place.  A loop
    carries the number of rounds it can make at most.  The unguarded loops
    rely on their callers for staying inside the range, as they do for a
    strict weak ordering; here they stop at the border of the array. *)
Module Libstdcxx.

Local Open Scope nat_scope.

Section Sort.

Context {A : Type} (comp : A -> A -> bool).

(** [enum { _S_threshold = 16 }]. *)
Definition S_threshold : nat := 16.

(** [__comp(i, j)] on two iterators. *)
Definition comp_iter (a : list A) (i j : nat) : bool :=
  match a !! i, a !! j with
  | Some x, Some y => comp x y
  | _, _ => false
  end.

Definition iter_swap (a : list A) (i j : nat) : list A :=
  match a !! i, a !! j with
  | Some x, Some y => <[j := x]> (<[i := y]> a)
  | _, _ => a
  end.

Definition move_median_to_first (a : list A) (result ia ib ic : nat) : list A :=
  if comp_iter a ia ib then
    if comp_iter a ib ic then iter_swap a result ib
    else if comp_iter a ia ic then iter_swap a result ic
    else iter_swap a result ia
  else if comp_iter a ia ic then iter_swap a result ia
  else if comp_iter a ib ic then iter_swap a result ic
  else iter_swap a result ib.

(** The loop of [__unguarded_linear_insert]: [last] is the hole and
    [next] the element before it. *)
Fixpoint unguarded_linear_insert_loop (a : list A) (val : A) (last : nat) : list A :=
  match last with
  | O => <[last := val]> a
  | S next =>
      match a !! next with
      | Some x =>
          if comp val x then unguarded_linear_insert_loop (<[last := x]> a) val next
          else <[last := val]> a
      | None => <[last := val]> a
      end
  end.

Definition unguarded_linear_insert (a : list A) (last : nat) : list A :=
  match a !! last with
  | Some val => unguarded_linear_insert_loop a val last
  | None => a
  end.

(** One round of [__insertion_sort] per element from [first + 1] on: an
    element that belongs before [*first] is moved there past the whole
    sorted block ([move_backward]), any other is inserted unguarded. *)
Fixpoint insertion_sort_loop (n : nat) (a : list A) (first i : nat) : list A :=
  match n with
  | O => a
  | S n' =>
      let a' :=
        if comp_iter a i first then
          match a !! i with
          | Some val =>
              take first a ++ val :: take (i - first) (drop first a) ++ drop (S i) a
          | None => a
          end
        else unguarded_linear_insert a i in
      insertion_sort_loop n' a' first (S i)
  end.

Definition insertion_sort (a : list A) (first last : nat) : list A :=
  if first =? last then a
  else insertion_sort_loop (last - (first + 1)) a first (first + 1).

Fixpoint unguarded_insertion_sort_loop (n : nat) (a : list A) (i : nat) : list A :=
  match n with
  | O => a
  | S n' => unguarded_insertion_sort_loop n' (unguarded_linear_insert a i) (S i)
  end.

Definition unguarded_insertion_sort (a : list A) (first last : nat) : list A :=
  unguarded_insertion_sort_loop (last - first) a first.

Definition final_insertion_sort (a : list A) (first last : nat) : list A :=
  if S_threshold <? last - first then
    unguarded_insertion_sort
      (insertion_sort a first (first + S_threshold)) (first + S_threshold) last
  else insertion_sort a first last.

(** [while (__comp(__first, __pivot)) ++__first]. *)
Fixpoint advance_first (n : nat) (a : list A) (first pivot : nat) : nat :=
  match n with
  | O => first
  | S n' =>
      if comp_iter a first pivot then advance_first n' a (S first) pivot
      else first
  end.

(** [while (__comp(__pivot, __last)) --__last]. *)
Fixpoint retreat_last (a : list A) (pivot last : nat) : nat :=
  match last with
  | O => O
  | S l => if comp_iter a pivot last then retreat_last a pivot l else last
  end.

(** Every round of [__unguarded_partition] moves [first] up and [last]
    down, so there are fewer rounds than elements. *)
Fixpoint unguarded_partition_loop (n : nat) (a : list A) (first last pivot : nat)
    : nat * list A :=
  match n with
  | O => (first, a)
  | S n' =>
      let first := advance_first (length a) a first pivot in
      let last := retreat_last a pivot (last - 1) in
      if negb (first <? last) then (first, a)
      else unguarded_partition_loop n' (iter_swap a first last) (S first) last pivot
  end.

Definition unguarded_partition (a : list A) (first last pivot : nat) : nat * list A :=
  unguarded_partition_loop (length a) a first last pivot.

Definition unguarded_partition_pivot (a : list A) (first last : nat) : nat * list A :=
  let mid := first + (last - first) / 2 in
  let a := move_median_to_first a first (first + 1) mid (last - 1) in
  unguarded_partition a (first + 1) last first.

(** [__push_heap]: the hole moves up while the parent is ordered before
    the value. *)
Fixpoint push_heap_loop (n : nat) (a : list A) (first holeIndex topIndex : nat)
    (value : A) : list A :=
  let parent := (holeIndex - 1) / 2 in
  match n, a !! (first + parent) with
  | S n', Some x =>
      if (topIndex <? holeIndex) && comp x value then
        push_heap_loop n' (<[first + holeIndex := x]> a) first parent topIndex value
      else <[first + holeIndex := value]> a
  | _, _ => <[first + holeIndex := value]> a
  end.

Definition push_heap (a : list A) (first holeIndex topIndex : nat) (value : A) : list A :=
  push_heap_loop holeIndex a first holeIndex topIndex value.

(** The first loop of [__adjust_heap]: the hole moves down to the larger
    child. *)
Fixpoint adjust_heap_loop (n : nat) (a : list A) (first holeIndex secondChild len : nat)
    : list A * nat * nat :=
  match n with
  | O => (a, holeIndex, secondChild)
  | S n' =>
      if secondChild <? (len - 1) / 2 then
        let secondChild := 2 * (secondChild + 1) in
        let secondChild :=
          if comp_iter a (first + secondChild) (first + (secondChild - 1))
          then secondChild - 1 else secondChild in
        match a !! (first + secondChild) with
        | Some x =>
            adjust_heap_loop n' (<[first + holeIndex := x]> a) first
                             secondChild secondChild len
        | None => (a, holeIndex, secondChild)
        end
      else (a, holeIndex, secondChild)
  end.

(** The distances are signed in the library: [(len - 2) / 2] is -1 for
    an empty range. *)
Definition adjust_heap (a : list A) (first holeIndex len : nat) (value : A) : list A :=
  let topIndex := holeIndex in
  let '(a, holeIndex, secondChild) :=
    adjust_heap_loop len a first holeIndex holeIndex len in
  let '(a, holeIndex) :=
    if Nat.even len && (Z.of_nat secondChild =? Z.quot (Z.of_nat len - 2) 2)%Z then
      let secondChild := 2 * (secondChild + 1) in
      match a !! (first + (secondChild - 1)) with
      | Some x => (<[first + holeIndex := x]> a, secondChild - 1)
      | None => (a, holeIndex)
      end
    else (a, holeIndex) in
  push_heap a first holeIndex topIndex value.

Definition pop_heap (a : list A) (first last result : nat) : list A :=
  match a !! result, a !! first with
  | Some value, Some x => adjust_heap (<[result := x]> a) first 0 (last - first) value
  | _, _ => a
  end.

Fixpoint make_heap_loop (a : list A) (first len parent : nat) : list A :=
  match a !! (first + parent) with
  | Some value =>
      let a := adjust_heap a first parent len value in
      match parent with
      | O => a
      | S p => make_heap_loop a first len p
      end
  | None => a
  end.

Definition make_heap (a : list A) (first last : nat) : list A :=
  if last - first <? 2 then a
  else make_heap_loop a first (last - first) ((last - first - 2) / 2).

Fixpoint heap_select_loop (n : nat) (a : list A) (first middle i : nat) : list A :=
  match n with
  | O => a
  | S n' =>
      heap_select_loop n'
        (if comp_iter a i first then pop_heap a first middle i else a)
        first middle (S i)
  end.

Definition heap_select (a : list A) (first middle last : nat) : list A :=
  heap_select_loop (last - middle) (make_heap a first middle) first middle middle.

Fixpoint sort_heap_loop (n : nat) (a : list A) (first last : nat) : list A :=
  match n with
  | O => a
  | S n' =>
      if 1 <? last - first then
        sort_heap_loop n' (pop_heap a first (last - 1) (last - 1)) first (last - 1)
      else a
  end.

Definition sort_heap (a : list A) (first last : nat) : list A :=
  sort_heap_loop (last - first) a first last.

Definition partial_sort (a : list A) (first middle last : nat) : list A :=
  sort_heap (heap_select a first middle last) first middle.

(** [__introsort_loop]: the recursive call sorts the upper part and the
    loop goes on with the lower part, both with the decremented depth
    limit. *)
Fixpoint introsort_loop (depth_limit : nat) (a : list A) (first last : nat) : list A :=
  if S_threshold <? last - first then
    match depth_limit with
    | O => partial_sort a first last last
    | S depth_limit =>
        let '(cut, a) := unguarded_partition_pivot a first last in
        let a := introsort_loop depth_limit a cut last in
        introsort_loop depth_limit a first cut
    end
  else a.

(** [std::sort(a.begin(), a.end(), comp)]. *)
Definition sort (a : list A) : list A :=
  let first := 0 in
  let last := length a in
  if first =? last then a
  else
    final_insertion_sort
      (introsort_loop (Nat.log2 (last - first) * 2) a first last) first last.

End Sort.

End Libstdcxx.

(** * A concrete instance

    Blobs are either empty or hold a tensor with known shape data; a net is
    represented by the name of its registered type. *)
Module Sample.

Definition types : ObjectTypes :=
  {| Blob := option ShapeInfo; NetBase := string;
     CaffeTypeId := bool; RawPointer := option ShapeInfo |}.

Definition registered_net_types : list string := ["simple"; "dag"].

Definition create_net (def : NetDef) (ws : addr) (w : @World types)
    : option string * @World types :=
  (if bool_decide (type def ∈ registered_net_types) then Some (type def)
   else None, w).

(** The type id tells whether the blob holds a tensor; only tensors have a
    shape function. *)
Definition meta_id (b : option ShapeInfo) : bool :=
  match b with Some _ => true | None => false end.
Definition shape_call (id : bool) : option (option ShapeInfo -> ShapeInfo) :=
  if id then
    Some (fun raw =>
            default {| shape := []; shares_data := false; capacity := 0%N |} raw)
  else None.

Definition tensor (dims : list Z) (shares : bool) (cap : N) : option ShapeInfo :=
  Some {| shape := dims; shares_data := shares; capacity := cap |}.

Definition capacity_ge (a b : N * string) : Prop := (fst b <= fst a)%N.

Definition capacity_ge_dec (a b : N * string) : Decision (capacity_ge a b) :=
  decide (fst b <= fst a)%N.

(** A sorting procedure that meets the contract of [std::sort], and
    [std::sort] as libstdc++ has it, with the comparator of
    [PrintBlobSizes]. *)
Definition stable_sort (l : list (N * string)) : list (N * string) :=
  @merge_sort _ capacity_ge capacity_ge_dec l.
Definition libstdcxx_sort (l : list (N * string)) : list (N * string) :=
  Libstdcxx.sort blob_size_comp l.

Definition collaborators (sort : list (N * string) -> list (N * string))
    : @Collaborators types :=
  @Build_Collaborators types
    None                   (* Blob_default *)
    create_net             (* caffe2_CreateNet *)
    (fun _ w => (true, w)) (* NetBase_Run *)
    meta_id                (* Blob_meta_id *)
    (fun b => b)           (* Blob_GetRaw *)
    shape_call             (* GetShapeCallFunction *)
    sort.                  (* std_sort *)

Definition stable : @Collaborators types := collaborators stable_sort.
Definition libstdcxx : @Collaborators types := collaborators libstdcxx_sort.

Definition parent_ws : Workspace :=
  {| blob_map_ := {["x" := 10]}; net_map_ := {["n" := Some 20]};
     shared_ := None; thread_pool_ := None |}.
Definition child_ws : Workspace :=
  {| blob_map_ := {["y" := 11]}; net_map_ := ∅;
     shared_ := Some 1; thread_pool_ := None |}.

Definition android8 : Config :=
  {| platform := CAFFE2_ANDROID;
     FLAGS_caffe2_threadpool_android_cap := 1%Z;
     FLAGS_caffe2_threadpool_ios_cap := 0%Z;
     hardware_concurrency := 8%Z |}.

(** A parent workspace at address 1 with the blob [x] and the net [n], and
    a child at address 2 with the blob [y]. *)
Definition w0 : @World types :=
  {| workspaces := {[1 := parent_ws; 2 := child_ws]};
     blobs := {[10 := tensor [2; 3]%Z false 24%N; 11 := None]};
     nets := {[20 := "simple"]};
     pools := ∅;
     config := android8;
     events := [] |}.

Definition net_n (ty : string) : NetDef :=
  {| name_ := Some "n"; type_ := Some ty |}.

(** A definition whose name is present and empty. *)
Definition net_empty_name : NetDef :=
  {| name_ := Some ""; type_ := Some "simple" |}.

(** A workspace with tensors of 10, 30 and 60 bytes, a tensor that shares
    the data of another, and an empty blob. *)
Definition report_ws : Workspace :=
  {| blob_map_ := {["a" := 10; "b" := 11; "c" := 12; "d" := 13; "e" := 14]};
     net_map_ := ∅; shared_ := None; thread_pool_ := None |}.
Definition w_report : @World types :=
  {| workspaces := {[1 := report_ws]};
     blobs := {[10 := tensor [10]%Z false 10%N;
                11 := tensor [5; 6]%Z false 30%N;
                12 := tensor [50]%Z true 50%N;
                13 := tensor [3; 20]%Z false 60%N;
                14 := None]};
     nets := ∅;
     pools := ∅;
     config := android8;
     events := [] |}.

(** A workspace with two tensors of the same capacity. *)
Definition ties_ws : Workspace :=
  {| blob_map_ := {["a" := 10; "b" := 11]}; net_map_ := ∅;
     shared_ := None; thread_pool_ := None |}.
Definition w_ties : @World types :=
  {| workspaces := {[1 := ties_ws]};
     blobs := {[10 := tensor [4]%Z false 16%N; 11 := tensor [2; 2]%Z false 16%N]};
     nets := ∅;
     pools := ∅;
     config := android8;
     events := [] |}.

(** A workspace with seventeen tensors of the same capacity.  The names
    count in binary with the letters a and b; the map visits them in
    alphabetical order. *)
Definition tie_names : list string :=
  ["aaaaa"; "aaaab"; "aaaba"; "aaabb"; "aabaa"; "aabab"; "aabba"; "aabbb";
   "abaaa"; "abaab"; "ababa"; "ababb"; "abbaa"; "abbab"; "abbba"; "abbbb";
   "baaaa"].
Definition ties17_ws : Workspace :=
  {| blob_map_ := list_to_map (zip tie_names (seq 10 17)); net_map_ := ∅;
     shared_ := None; thread_pool_ := None |}.
Definition w_ties17 : @World types :=
  {| workspaces := {[1 := ties17_ws]};
     blobs := list_to_map (map (fun p => (p, tensor [4]%Z false 16%N)) (seq 10 17));
     nets := ∅;
     pools := ∅;
     config := android8;
     events := [] |}.

(** An operator factory that knows one operator type; running an operator
    creates no blob and reports whether its type is [Relu]. *)
Definition operators : @OperatorCollaborators types :=
  @Build_OperatorCollaborators types string
    (fun d _ w => (if bool_decide (op_type d = "Relu") then Some "Relu" else None, w))
    (fun o w => (bool_decide (o = "Relu"), w)).

End Sample.

Abbreviation sample_CreateNet := (@CreateNet Sample.types Sample.stable).
Abbreviation sample_GetNet := (@GetNet Sample.types).
Abbreviation sample_GetBlob := (@GetBlob Sample.types).
Abbreviation sample_CreateBlob := (@CreateBlob Sample.types Sample.stable).
Abbreviation sample_Blobs := (@Blobs Sample.types).
Abbreviation sample_LocalBlobs := (@LocalBlobs Sample.types).
Abbreviation sample_GetThreadPool := (@GetThreadPool Sample.types).
Abbreviation sample_events := (@events Sample.types).
Abbreviation sample_workspaces := (@workspaces Sample.types).
Abbreviation sample_nets := (@nets Sample.types).
Abbreviation sample_pools := (@pools Sample.types).
Abbreviation sample_blobs := (@blobs Sample.types).
Abbreviation sample_RemoveBlob := (@RemoveBlob Sample.types).
Abbreviation sample_DeleteNet := (@DeleteNet Sample.types).
Abbreviation sample_RunNet := (@RunNet Sample.types Sample.stable).
Abbreviation sample_RunNetOnce := (@RunNetOnce Sample.types Sample.stable).
Abbreviation sample_PrintBlobSizes :=
  (@PrintBlobSizes Sample.types Sample.stable).
Abbreviation sample_report_events :=
  (@report_events Sample.types Sample.stable).
Abbreviation sample_RunOperatorOnce :=
  (@RunOperatorOnce Sample.types Sample.operators).

(** * Properties *)

Ltac unfold_m :=
  repeat progress unfold
    CreateNet, GetNet, DeleteNet, RunNet, call_Run, net_map_index_get,
    net_map_assign, net_map_erase, call_CreateNet,
    CreateBlob, RemoveBlob, blob_map_assign_new, LocalBlobs, get_blob,
    GetThreadPool, thread_pool_reset_new,
    CAFFE_ENFORCE, CAFFE_THROW, CHECK, LOG, emit, put_ws, get_ws, throw,
    undefined, bind, ret.

Section Properties.

Context {types : ObjectTypes} {collab : Collaborators}.

(** ** Net registry *)

Lemma decide_is_Some_true {A B} (o : option A) (x y : B) :
  is_Some o -> (if decide (is_Some o) then x else y) = x.
Proof. intros H. destruct (decide (is_Some o)); [done|contradiction]. Qed.

Lemma decide_is_Some_false {A B} (x y : B) :
  (if decide (is_Some (@None A)) then x else y) = y.
Proof. destruct (decide (is_Some (@None A))) as [[? ?]|]; [discriminate|done]. Qed.

Ltac msimpl :=
  repeat first
    [ progress simpl
    | progress unfold_m
    | rewrite lookup_insert_eq
    | rewrite lookup_delete_eq
    | rewrite lookup_insert_ne by done
    | rewrite decide_is_Some_true by eauto
    | rewrite decide_is_Some_false
    | match goal with
      | H : ?x = _ |- context [?x] => rewrite H
      end ].

Lemma construction_state_workspace w this ws net_def :
  workspaces w !! this = Some ws ->
  workspaces (construction_state this net_def w) !! this
  = Some (set_net_map_ (delete (name net_def) (net_map_ ws)) ws).
Proof.
  intros Hws. unfold construction_state. rewrite Hws.
  destruct (net_map_ ws !! name net_def) as [[p|]|] eqn:E; simpl;
    rewrite ?lookup_insert_eq; try done.
  rewrite Hws. f_equal. destruct ws; unfold set_net_map_; simpl in *.
  f_equal. symmetry. by apply delete_id.
Qed.

(** C2.  When the workspace already holds a net named [n], [CreateNet] with
    a definition named [n] and [overwrite = false] throws the refusal
    error; the world after the failed call is the world before it, so the
    original net is still registered under [n], the same object, and
    [RunNet] reaches its [Run()]. *)
Theorem CreateNet_refuses_overwrite (w : World) (this : addr) (ws : Workspace)
    (net_def : NetDef) (n : string) (p : addr) (net : NetBase) :
  workspaces w !! this = Some ws ->
  name_ net_def = Some n ->
  net_map_ ws !! n = Some (Some p) ->
  nets w !! p = Some net ->
  exists w',
    CreateNet this net_def false w = (Throw (EnforceNotMet (refuse_msg n)), w')
    /\ w' = w
    /\ GetNet this n w' = (Ret (Some p), w')
    /\ nets w' !! p = Some net
    /\ RunNet this n w' = (let '(b, w'') := NetBase_Run net w' in (Ret b, w'')).
Proof.
  intros Hws Hname Hn Hp. exists w.
  assert (Hnm : name net_def = n) by (unfold name; rewrite Hname; done).
  assert (Hhas : has_name net_def = true) by (unfold has_name; rewrite Hname; done).
  repeat split; auto.
  - unfold_m. rewrite Hhas, Hws, Hnm. simpl.
    destruct (decide (is_Some (net_map_ ws !! n))) as [_|Hno]; [done|].
    destruct Hno. rewrite Hn. eauto.
  - unfold_m. rewrite Hws.
    destruct (decide (is_Some (net_map_ ws !! n))) as [_|Hno].
    + rewrite Hws, Hn. done.
    + destruct Hno. rewrite Hn. eauto.
  - unfold_m. rewrite Hws.
    destruct (decide (is_Some (net_map_ ws !! n))) as [_|Hno].
    + rewrite Hws, Hn, Hp. done.
    + destruct Hno. rewrite Hn. eauto.
Qed.

(** How [CreateNet] ends when the collaborator yields null. *)
Lemma CreateNet_null w this ws net_def overwrite w1 :
  net_factory_keeps_registry ->
  workspaces w !! this = Some ws ->
  has_name net_def = true ->
  net_map_ ws !! name net_def = None \/ overwrite = true ->
  caffe2_CreateNet net_def this (construction_state this net_def w) = (None, w1) ->
  exists w' ws',
    CreateNet this net_def overwrite w = (Ret None, w')
    /\ workspaces w' !! this = Some ws'
    /\ net_map_ ws' = delete (name net_def) (net_map_ ws)
    /\ nets w' = nets (construction_state this net_def w)
    /\ events w' = events w1 ++ [Log ERROR (creation_error_msg net_def)].
Proof.
  intros Hframe Hws Hhas Hcase Hnull.
  pose proof (construction_state_workspace w this ws net_def Hws) as Hcw.
  destruct (Hframe _ _ _ _ _ Hnull) as (Hn1 & Hw1 & _).
  destruct (Hw1 this _ Hcw) as (ws1 & Hws1 & Hnm1). clear Hw1 Hcw.
  revert Hnull Hn1. unfold construction_state. rewrite Hws.
  unfold CreateNet. unfold CAFFE_ENFORCE. rewrite Hhas.
  destruct (net_map_ ws !! name net_def) as [up|] eqn:E.
  - destruct Hcase as [Hc | ->]; [congruence|].
    destruct up as [p|]; intros Hnull Hn1; unfold_m; msimpl;
      (eexists _, _; split; [reflexivity|]); msimpl;
      (split; [reflexivity|]); simpl;
      (split; [by rewrite delete_insert_eq, ?delete_delete_eq|]);
      (split; [done|]); reflexivity.
  - intros Hnull Hn1; unfold_m; msimpl.
    eexists _, _; split; [reflexivity|]; msimpl.
    split; [reflexivity|]. simpl.
    split; [by rewrite delete_insert_eq, ?delete_delete_eq|].
    split; [done|]. reflexivity.
Qed.

(** How [CreateNet] ends when the collaborator yields a net. *)
Lemma CreateNet_built w this ws net_def overwrite obj w1 :
  net_factory_keeps_registry ->
  workspaces w !! this = Some ws ->
  has_name net_def = true ->
  net_map_ ws !! name net_def = None \/ overwrite = true ->
  caffe2_CreateNet net_def this (construction_state this net_def w)
  = (Some obj, w1) ->
  exists w' ws',
    let a := fresh (dom (nets w1)) in
    CreateNet this net_def overwrite w = (Ret (Some a), w')
    /\ workspaces w' !! this = Some ws'
    /\ net_map_ ws' = <[name net_def := Some a]> (net_map_ ws)
    /\ nets w' = <[a := obj]> (nets w1)
    /\ events w' = events w1.
Proof.
  intros Hframe Hws Hhas Hcase Hobj.
  pose proof (construction_state_workspace w this ws net_def Hws) as Hcw.
  destruct (Hframe _ _ _ _ _ Hobj) as (_ & Hw1 & _).
  destruct (Hw1 this _ Hcw) as (ws1 & Hws1 & Hnm1). clear Hw1 Hcw.
  revert Hobj. unfold construction_state. rewrite Hws.
  unfold CreateNet. unfold CAFFE_ENFORCE. rewrite Hhas.
  destruct (net_map_ ws !! name net_def) as [up|] eqn:E.
  - destruct Hcase as [Hc | ->]; [congruence|].
    destruct up as [p|]; intros Hobj; unfold_m; msimpl;
      (eexists _, _; split; [reflexivity|]); msimpl;
      (split; [reflexivity|]); simpl;
      (split; [by rewrite insert_delete_eq|]);
      (split; [done|]); reflexivity.
  - intros Hobj; unfold_m; msimpl.
    eexists _, _; split; [reflexivity|]; msimpl.
    split; [reflexivity|]. simpl.
    split; [by rewrite insert_delete_eq|].
    split; [done|]. reflexivity.
Qed.

(** The world handed to the collaborator when a net is overwritten. *)
Lemma construction_state_overwrite w this ws net_def p :
  workspaces w !! this = Some ws ->
  net_map_ ws !! name net_def = Some (Some p) ->
  nets (construction_state this net_def w) = delete p (nets w)
  /\ events (construction_state this net_def w)
     = events w ++ [Log VLOG1 "Deleting existing network of the same name.";
                    NetDestroyed p;
                    Log VLOG1 ("Initializing network " +:+ name net_def);
                    NetConstruct net_def this].
Proof.
  intros Hws Hn. unfold construction_state. rewrite Hws, Hn. simpl.
  split; [done|]. by rewrite <- !app_assoc.
Qed.

(** C3.  When the workspace holds a net [p] under the name [n], [CreateNet]
    for [n] with [overwrite = true] hands the definition to the net
    constructor in a world in which [p] has already been destroyed and the
    name [n] is no longer registered; in the trace, the destruction of [p]
    comes strictly before the construction, whatever the constructor adds
    to it; and the net returned (if any) is the one built in that world. *)
Theorem CreateNet_destroys_before_constructing (w : World) (this : addr)
    (ws : Workspace) (net_def : NetDef) (n : string) (p : addr) :
  net_factory_keeps_registry ->
  workspaces w !! this = Some ws ->
  name_ net_def = Some n ->
  net_map_ ws !! n = Some (Some p) ->
  let wc := construction_state this net_def w in
  nets wc !! p = None
  /\ (exists wsc, workspaces wc !! this = Some wsc /\ net_map_ wsc !! n = None)
  /\ events wc
     = events w ++ [Log VLOG1 "Deleting existing network of the same name.";
                    NetDestroyed p;
                    Log VLOG1 ("Initializing network " +:+ n);
                    NetConstruct net_def this]
  /\ exists r w' tail,
      CreateNet this net_def true w = (Ret r, w')
      /\ events w' = events wc ++ tail
      /\ match r with
         | Some a => nets w' !! a = fst (caffe2_CreateNet net_def this wc)
         | None => fst (caffe2_CreateNet net_def this wc) = None
         end.
Proof.
  intros Hframe Hws Hname Hn wc.
  assert (Hnm : name net_def = n) by (unfold name; rewrite Hname; done).
  assert (Hhas : has_name net_def = true) by (unfold has_name; rewrite Hname; done).
  rewrite <- Hnm in Hn.
  destruct (construction_state_overwrite w this ws net_def p Hws Hn) as [Hnets Hev].
  fold wc in Hnets, Hev. rewrite Hnm in Hev.
  split; [rewrite Hnets; apply lookup_delete_eq|].
  split.
  { eexists. split; [apply construction_state_workspace; exact Hws|].
    simpl. rewrite Hnm. apply lookup_delete_eq. }
  split; [exact Hev|].
  destruct (caffe2_CreateNet net_def this wc) as [[obj|] w1] eqn:Hc.
  - destruct (Hframe _ _ _ _ _ Hc) as (_ & _ & tail & Htail).
    destruct (CreateNet_built w this ws net_def true obj w1 Hframe Hws Hhas
                (or_intror eq_refl) Hc)
      as (w' & ws' & Hrun & _ & _ & Hnets' & Hev').
    eexists _, w', tail. split; [exact Hrun|].
    split; [by rewrite Hev', Htail|].
    rewrite Hnets'. by rewrite lookup_insert_eq.
  - destruct (Hframe _ _ _ _ _ Hc) as (_ & _ & tail & Htail).
    destruct (CreateNet_null w this ws net_def true w1 Hframe Hws Hhas
                (or_intror eq_refl) Hc)
      as (w' & ws' & Hrun & _ & _ & _ & Hev').
    exists None, w', (tail ++ [Log ERROR (creation_error_msg net_def)]).
    split; [exact Hrun|].
    split; [by rewrite Hev', Htail, app_assoc|done].
Qed.

(** C4.  When the collaborator yields null for a named definition (one that
    is not refused), [CreateNet] returns null, the registry has no entry at
    all under the definition's name afterwards, and [GetNet] for that name
    returns null. *)
Theorem CreateNet_failure_leaves_no_trace (w : World) (this : addr)
    (ws : Workspace) (net_def : NetDef) (overwrite : bool) :
  net_factory_keeps_registry ->
  workspaces w !! this = Some ws ->
  has_name net_def = true ->
  net_map_ ws !! name net_def = None \/ overwrite = true ->
  fst (caffe2_CreateNet net_def this (construction_state this net_def w)) = None ->
  exists w' ws',
    CreateNet this net_def overwrite w = (Ret None, w')
    /\ workspaces w' !! this = Some ws'
    /\ net_map_ ws' !! name net_def = None
    /\ GetNet this (name net_def) w' = (Ret None, w').
Proof.
  intros Hframe Hws Hhas Hcase Hc.
  destruct (caffe2_CreateNet net_def this (construction_state this net_def w))
    as [r w1] eqn:Hf. simpl in Hc. subst r.
  destruct (CreateNet_null w this ws net_def overwrite w1 Hframe Hws Hhas Hcase Hf)
    as (w' & ws' & Hrun & Hws' & Hnm' & _).
  exists w', ws'. split; [exact Hrun|]. split; [exact Hws'|].
  assert (Hgone : net_map_ ws' !! name net_def = None)
    by (rewrite Hnm'; apply lookup_delete_eq).
  split; [exact Hgone|].
  unfold_m. rewrite Hws'. simpl. rewrite Hgone.
  by rewrite decide_is_Some_false.
Qed.

Lemma refuse_msg_is_not_usage (s : string) :
  refuse_msg s <> "Net definition should have a name.".
Proof. unfold refuse_msg. simpl. discriminate. Qed.

(** C5 (amended).  [CreateNet] checks that the definition has a name
    field, not that the name is non-empty.  A definition whose name field is
    absent makes [CreateNet] throw the usage error at once; the world, and
    with it the net registry, is unchanged.  A definition whose name field
    is present, whatever the name and the empty name included, never gets
    the usage error: the only error the call can then throw is the refusal
    to overwrite, which needs [overwrite = false] and a net registered
    under that very name. *)
Theorem CreateNet_requires_name_field (w : World) (this : addr) (net_def : NetDef)
    (overwrite : bool) :
  (name_ net_def = None ->
   CreateNet this net_def overwrite w
   = (Throw (EnforceNotMet "Net definition should have a name."), w))
  /\ (forall s, name_ net_def = Some s ->
        fst (CreateNet this net_def overwrite w)
        <> Throw (EnforceNotMet "Net definition should have a name.")
        /\ forall e, fst (CreateNet this net_def overwrite w) = Throw e ->
             e = EnforceNotMet (refuse_msg s)
             /\ overwrite = false
             /\ exists ws, workspaces w !! this = Some ws
                           /\ is_Some (net_map_ ws !! s)).
Proof.
  split.
  { intros Hname. unfold CreateNet, CAFFE_ENFORCE, has_name. rewrite Hname.
    reflexivity. }
  intros s Hname.
  assert (Hnm : name net_def = s) by (unfold name; rewrite Hname; done).
  assert (Hhas : has_name net_def = true) by (unfold has_name; rewrite Hname; done).
  assert (Hthrow : forall e, fst (CreateNet this net_def overwrite w) = Throw e ->
             e = EnforceNotMet (refuse_msg s)
             /\ overwrite = false
             /\ exists ws, workspaces w !! this = Some ws
                           /\ is_Some (net_map_ ws !! s)).
  { intros e. unfold_m. rewrite Hhas, Hnm. simpl.
    destruct (workspaces w !! this) as [ws|] eqn:Hws; simpl; [|discriminate].
    destruct (decide (is_Some (net_map_ ws !! s))) as [Hreg|Hreg].
    - destruct overwrite; simpl.
      + intros He. exfalso. revert He.
        repeat (case_match; simpl in *; try discriminate).
      + intros [= <-]. eauto.
    - intros He. exfalso. revert He.
      repeat (case_match; simpl in *; try discriminate). }
  split; [|exact Hthrow].
  intros He. destruct (Hthrow _ He) as (Hmsg & _).
  apply (refuse_msg_is_not_usage s). congruence.
Qed.

(** C10.  When the workspace holds a net [p] under [n] and [CreateNet] for
    [n] with [overwrite = true] gets null from the collaborator, the call
    returns null after [p] has been destroyed: [p] is gone from the heap,
    nothing is registered under [n], and [GetNet] and [RunNet] find no
    net. *)
Theorem CreateNet_overwrite_failure_loses_old_net (w : World) (this : addr)
    (ws : Workspace) (net_def : NetDef) (n : string) (p : addr) (net : NetBase) :
  net_factory_keeps_registry ->
  workspaces w !! this = Some ws ->
  name_ net_def = Some n ->
  net_map_ ws !! n = Some (Some p) ->
  nets w !! p = Some net ->
  fst (caffe2_CreateNet net_def this (construction_state this net_def w)) = None ->
  exists w' ws',
    CreateNet this net_def true w = (Ret None, w')
    /\ nets w' !! p = None
    /\ NetDestroyed p ∈ events w'
    /\ workspaces w' !! this = Some ws'
    /\ net_map_ ws' !! n = None
    /\ GetNet this n w' = (Ret None, w')
    /\ fst (RunNet this n w') = Ret false.
Proof.
  intros Hframe Hws Hname Hn Hp Hc.
  assert (Hnm : name net_def = n) by (unfold name; rewrite Hname; done).
  assert (Hhas : has_name net_def = true) by (unfold has_name; rewrite Hname; done).
  rewrite <- Hnm in Hn.
  destruct (construction_state_overwrite w this ws net_def p Hws Hn) as [Hnets Hev].
  destruct (caffe2_CreateNet net_def this (construction_state this net_def w))
    as [r w1] eqn:Hf. simpl in Hc. subst r.
  destruct (Hframe _ _ _ _ _ Hf) as (_ & _ & tail & Htail).
  destruct (CreateNet_null w this ws net_def true w1 Hframe Hws Hhas
              (or_intror eq_refl) Hf)
    as (w' & ws' & Hrun & Hws' & Hnm' & Hnets' & Hev').
  assert (Hgone : net_map_ ws' !! n = None)
    by (rewrite Hnm', Hnm; apply lookup_delete_eq).
  exists w', ws'. split; [exact Hrun|].
  split; [rewrite Hnets', Hnets; apply lookup_delete_eq|].
  split.
  { rewrite Hev', Htail, Hev. rewrite !elem_of_app. left. left. right.
    apply list_elem_of_further, list_elem_of_here. }
  split; [exact Hws'|]. split; [exact Hgone|].
  split; unfold_m; rewrite Hws'; simpl; rewrite Hgone;
    by rewrite decide_is_Some_false.
Qed.

(** ** Blob store *)

Lemma GetBlob_local w this ws fuel s p :
  workspaces w !! this = Some ws ->
  blob_map_ ws !! s = Some p ->
  GetBlob (S fuel) this s w = (Ret (Some p), w).
Proof. intros Hws Hs. msimpl. done. Qed.

Lemma HasBlob_local w this ws fuel s p :
  workspaces w !! this = Some ws ->
  blob_map_ ws !! s = Some p ->
  HasBlob (S fuel) this s w = (Ret true, w).
Proof. intros Hws Hs. msimpl. done. Qed.

Lemma parent_chain_workspaces w w' this d :
  workspaces w' = workspaces w -> parent_chain w this d -> parent_chain w' this d.
Proof.
  intros Heq. induction 1 as [this ws Hws Hsh | this ws sh d Hws Hsh _ IH].
  - apply (chain_root _ this ws); [by rewrite Heq | done].
  - apply (chain_step _ this ws sh); [by rewrite Heq | done | done].
Qed.

Lemma parent_chain_pos w this d : parent_chain w this d -> 1 <= d.
Proof. destruct 1; lia. Qed.

Lemma on_chain_trans w a b c : on_chain w a b -> on_chain w b c -> on_chain w a c.
Proof.
  intros Hab. induction 1 as [|x ws sh _ IH Hws Hsh]; [done|].
  by apply (on_chain_parent _ _ x ws sh).
Qed.

(** On a valid parent chain and with fuel for its length, [HasBlob] and
    [GetBlob] agree: either some workspace of the chain owns the name, both
    find it and [GetBlob] returns the entry of that workspace without
    changing anything, or [HasBlob] is false and [GetBlob] returns null after
    one warning.  The answer depends on the workspaces only. *)
Lemma chain_lookup w this d n :
  parent_chain w this d ->
  (exists owner ows b,
      on_chain w this owner /\ workspaces w !! owner = Some ows
      /\ blob_map_ ows !! n = Some b
      /\ forall w' fuel,
           workspaces w' = workspaces w -> d <= fuel ->
           HasBlob fuel this n w' = (Ret true, w')
           /\ GetBlob fuel this n w' = (Ret (Some b), w'))
  \/ (forall w' fuel,
        workspaces w' = workspaces w -> d <= fuel ->
        HasBlob fuel this n w' = (Ret false, w')
        /\ GetBlob fuel this n w'
           = (Ret None,
              set_events (fun l => l ++ [Log WARNING (blob_not_found n)]) w')).
Proof.
  induction 1 as [this ws Hws Hsh | this ws sh d Hws Hsh _ IH].
  - destruct (blob_map_ ws !! n) as [b|] eqn:Hn.
    + left. exists this, ws, b. split; [constructor|]. split; [done|]. split; [done|].
      intros w' [|fuel] Heq Hle; [lia|]. rewrite <- Heq in Hws.
      split; msimpl; done.
    + right. intros w' [|fuel] Heq Hle; [lia|]. rewrite <- Heq in Hws.
      split; msimpl; done.
  - destruct (blob_map_ ws !! n) as [b|] eqn:Hn.
    + left. exists this, ws, b. split; [constructor|]. split; [done|]. split; [done|].
      intros w' [|fuel] Heq Hle; [lia|]. rewrite <- Heq in Hws.
      split; msimpl; done.
    + assert (Hstep : on_chain w this sh)
        by (apply (on_chain_parent _ _ this ws sh); [constructor | done | done]).
      destruct IH as [(owner & ows & b & Hon & Hows & Hb & IH) | IH].
      * left. exists owner, ows, b.
        split; [by apply (on_chain_trans _ _ sh)|]. split; [done|]. split; [done|].
        intros w' [|fuel] Heq Hle; [lia|].
        destruct (IH w' fuel Heq ltac:(lia)) as [Hhas Hget].
        rewrite <- Heq in Hws. split; msimpl; done.
      * right. intros w' [|fuel] Heq Hle; [lia|].
        destruct (IH w' fuel Heq ltac:(lia)) as [Hhas Hget].
        rewrite <- Heq in Hws. split; msimpl; done.
Qed.

(** C1 (amended).  With [HasBlob] following the parent chain as [GetBlob]
    does: a child whose parent owns a blob named [x], and which has no
    local [x], resolves [x] to the parent's blob.  [CreateBlob] on the child finds the
    name through the parent: it logs that the blob exists, creates nothing
    and returns the parent's blob, which is allocated as before.  No
    workspace and no blob changes, so the child still has no local [x], its
    [GetBlob] still resolves to the parent's blob, and the parent's blob is
    as it was. *)
Theorem child_CreateBlob_returns_parent_blob (w : World) (child parent : addr)
    (cws pws : Workspace) (x : string) (bp : addr) (obj : Blob) (fuel : nat) :
  workspaces w !! child = Some cws ->
  shared_ cws = Some parent ->
  workspaces w !! parent = Some pws ->
  blob_map_ pws !! x = Some bp ->
  blob_map_ cws !! x = None ->
  blobs w !! bp = Some obj ->
  GetBlob (S (S fuel)) child x w = (Ret (Some bp), w)
  /\ exists w',
      CreateBlob (S (S fuel)) child x w = (Ret (Some bp), w')
      /\ events w' = events w ++ [Log VLOG1 ("Blob " +:+ x +:+ " already exists. Skipping.")]
      /\ workspaces w' = workspaces w
      /\ blobs w' = blobs w
      /\ workspaces w' !! child = Some cws
      /\ LocalBlobs child w' = (Ret (keys (blob_map_ cws)), w')
      /\ (x ∉ keys (blob_map_ cws))
      /\ GetBlob (S (S fuel)) child x w' = (Ret (Some bp), w')
      /\ workspaces w' !! parent = Some pws
      /\ blobs w' !! bp = Some obj
      /\ GetBlob (S (S fuel)) parent x w' = (Ret (Some bp), w').
Proof.
  intros Hc Hsh Hp Hpx Hcx Hlive.
  split; [msimpl; done|].
  eexists. split; [unfold_m; msimpl; reflexivity|].
  split; [done|]. split; [done|]. split; [done|]. split; [done|].
  split; [unfold_m; msimpl; done|].
  split.
  { unfold keys. rewrite list_elem_of_fmap. intros ([s p] & -> & Hin).
    apply elem_of_map_to_list in Hin. simpl in Hcx. congruence. }
  split; [msimpl; done|].
  split; [done|]. split; [done|].
  msimpl; done.
Qed.

(** C6.  With [HasBlob] following the parent chain as [GetBlob] does: on a
    workspace with a valid parent chain, two calls of [CreateBlob] with the
    same name return the same blob.  The second call changes no workspace
    and no blob.  The first call leaves every blob that existed untouched
    and adds at most one entry to the workspace's own map.  Either the name
    was owned by the workspace or one of its ancestors: then the blob is the
    entry of that owner, the one [GetBlob] found before, and the first call
    changes nothing besides the trace.  Or the name was not found: then the
    blob is a newly allocated empty blob, entered under the name in the
    workspace's own map.  In both cases the blob is allocated when the
    entries for the name point to allocated blobs. *)
Theorem CreateBlob_idempotent (w : World) (this : addr) (ws : Workspace)
    (n : string) (d fuel : nat) :
  workspaces w !! this = Some ws ->
  parent_chain w this d ->
  d <= fuel ->
  exists b w1 ws1 w2,
    CreateBlob fuel this n w = (Ret (Some b), w1)
    /\ CreateBlob fuel this n w1 = (Ret (Some b), w2)
    /\ workspaces w2 = workspaces w1
    /\ blobs w2 = blobs w1
    /\ (forall a, is_Some (blobs w !! a) -> blobs w1 !! a = blobs w !! a)
    /\ workspaces w1 !! this = Some ws1
    /\ size (blob_map_ ws) <= size (blob_map_ ws1) <= S (size (blob_map_ ws))
    /\ ((exists owner ows,
           on_chain w this owner
           /\ workspaces w !! owner = Some ows
           /\ blob_map_ ows !! n = Some b
           /\ GetBlob fuel this n w = (Ret (Some b), w)
           /\ workspaces w1 = workspaces w
           /\ blobs w1 = blobs w)
        \/ (fst (GetBlob fuel this n w) = Ret None
            /\ blobs w !! b = None
            /\ blobs w1 = <[b := Blob_default]> (blobs w)
            /\ workspaces w1
               = <[this := set_blob_map_ (<[n := b]> (blob_map_ ws)) ws]> (workspaces w)))
    /\ ((forall a wsa p, workspaces w !! a = Some wsa ->
           blob_map_ wsa !! n = Some p -> is_Some (blobs w !! p)) ->
        is_Some (blobs w2 !! b)).
Proof.
  intros Hws Hchain Hle.
  destruct (chain_lookup w this d n Hchain)
    as [(owner & ows & b & Hon & Hows & Hb & Hlook) | Hlook].
  - (* the name is owned on the chain *)
    pose (skip := Log VLOG1 ("Blob " +:+ n +:+ " already exists. Skipping.")).
    pose (w1 := set_events (fun l => l ++ [skip]) w).
    pose (w2 := set_events (fun l => l ++ [skip]) w1).
    destruct (Hlook w fuel eq_refl Hle) as [Hhas Hget].
    destruct (Hlook w1 fuel eq_refl Hle) as [_ Hget1].
    destruct (Hlook w1 fuel eq_refl Hle) as [Hhas1 _].
    destruct (Hlook w2 fuel eq_refl Hle) as [_ Hget2].
    exists b, w1, ws, w2.
    split; [unfold CreateBlob, bind; rewrite Hhas; unfold LOG, emit; exact Hget1|].
    split; [unfold CreateBlob, bind; rewrite Hhas1; unfold LOG, emit; exact Hget2|].
    split; [done|]. split; [done|]. split; [done|]. split; [exact Hws|].
    split; [lia|].
    split; [left; exists owner, ows; done|].
    intros Hlive. exact (Hlive owner ows b Hows Hb).
  - (* the name is not found: a blob is created *)
    destruct (Hlook w fuel eq_refl Hle) as [Hhas Hget].
    destruct fuel as [|fuel]; [apply parent_chain_pos in Hchain; lia|].
    assert (Hnone : blob_map_ ws !! n = None).
    { destruct (blob_map_ ws !! n) as [p|] eqn:Hn; [|done].
      rewrite (HasBlob_local w this ws fuel n p Hws Hn) in Hhas. discriminate. }
    pose (b := fresh (dom (blobs w))).
    assert (Hfresh : blobs w !! b = None).
    { apply not_elem_of_dom. apply is_fresh. }
    pose (ws1 := set_blob_map_ (<[n := b]> (blob_map_ ws)) ws).
    pose (w1 := set_workspaces (insert this ws1)
                  (set_blobs (insert b Blob_default)
                     (set_events (fun l => l ++ [Log VLOG1 ("Creating blob " +:+ n)]) w))).
    pose (w2 := set_events
                  (fun l => l ++ [Log VLOG1 ("Blob " +:+ n +:+ " already exists. Skipping.")])
                  w1).
    assert (Hws1 : workspaces w1 !! this = Some ws1) by apply lookup_insert_eq.
    assert (Hb1 : blob_map_ ws1 !! n = Some b) by apply lookup_insert_eq.
    exists b, w1, ws1, w2.
    split.
    { unfold CreateBlob, bind at 1. rewrite Hhas.
      unfold bind at 1. unfold bind at 1. unfold LOG, emit.
      unfold blob_map_assign_new, bind at 1, get_ws. simpl. rewrite Hws.
      unfold put_ws. apply (GetBlob_local _ this ws1 fuel n b); [exact Hws1|exact Hb1]. }
    split.
    { unfold CreateBlob, bind at 1.
      rewrite (HasBlob_local w1 this ws1 fuel n b Hws1 Hb1).
      unfold bind at 1. unfold LOG, emit.
      apply (GetBlob_local _ this ws1 fuel n b); [exact Hws1|exact Hb1]. }
    split; [done|]. split; [done|].
    split.
    { intros a Ha. simpl. apply lookup_insert_ne. intros Heq.
      rewrite <- Heq, Hfresh in Ha. by destruct Ha. }
    split; [exact Hws1|].
    split; [simpl; rewrite map_size_insert_None by done; lia|].
    split.
    { right. split; [by rewrite Hget|]. split; [exact Hfresh|]. done. }
    intros _. simpl. rewrite lookup_insert_eq. eauto.
Qed.

Lemma Blobs_total w this d :
  parent_chain w this d ->
  exists names, forall fuel, d <= fuel -> Blobs fuel this w = (Ret names, w).
Proof.
  induction 1 as [this ws Hws Hsh | this ws sh d Hws Hsh _ [inh IH]].
  - exists (keys (blob_map_ ws)). intros [|fuel] Hle; [lia|].
    simpl. unfold_m. msimpl. done.
  - exists (keys (blob_map_ ws) ++ inh). intros [|fuel] Hle; [lia|].
    simpl. unfold_m. msimpl. rewrite IH by lia. done.
Qed.

Lemma keys_NoDup {V} (m : gmap string V) : NoDup (keys m).
Proof. apply NoDup_fst_map_to_list. Qed.

(** C7.  [Blobs()] is the list of the workspace's own blob names followed
    by the whole list [Blobs()] of its parent (nothing when there is no
    parent).  Nothing is removed: every name occurs as often as in the two
    parts together, so a name that is also in the parent's list occurs once
    more than there. *)
Theorem Blobs_concatenates_without_dedup (w : World) (this : addr)
    (ws : Workspace) (d fuel : nat) :
  workspaces w !! this = Some ws ->
  parent_chain w this d ->
  d <= fuel ->
  exists inherited,
    match shared_ ws with
    | None => inherited = []
    | Some sh => forall fuel', pred d <= fuel' ->
                              Blobs fuel' sh w = (Ret inherited, w)
    end
    /\ LocalBlobs this w = (Ret (keys (blob_map_ ws)), w)
    /\ Blobs fuel this w = (Ret (keys (blob_map_ ws) ++ inherited), w)
    /\ forall x,
        count_occ String.string_dec (keys (blob_map_ ws) ++ inherited) x
        = count_occ String.string_dec (keys (blob_map_ ws)) x
          + count_occ String.string_dec inherited x
        /\ (is_Some (blob_map_ ws !! x) ->
            count_occ String.string_dec (keys (blob_map_ ws) ++ inherited) x
            = S (count_occ String.string_dec inherited x)).
Proof.
  intros Hws Hch Hle.
  assert (Hlocal : LocalBlobs this w = (Ret (keys (blob_map_ ws)), w))
    by (unfold_m; msimpl; done).
  assert (Hcount : forall inh x,
    count_occ String.string_dec (keys (blob_map_ ws) ++ inh) x
    = count_occ String.string_dec (keys (blob_map_ ws)) x + count_occ String.string_dec inh x
    /\ (is_Some (blob_map_ ws !! x) ->
        count_occ String.string_dec (keys (blob_map_ ws) ++ inh) x
        = S (count_occ String.string_dec inh x))).
  { intros inh x. rewrite count_occ_app. split; [done|].
    intros [v Hv]. f_equal.
    pose proof (keys_NoDup (blob_map_ ws)) as Hnd.
    apply NoDup_ListNoDup in Hnd.
    rewrite (proj1 (NoDup_count_occ' String.string_dec _) Hnd); [done|].
    apply list_elem_of_In. unfold keys. apply list_elem_of_fmap.
    exists (x, v). split; [done|]. by apply elem_of_map_to_list. }
  inversion Hch as [this' ws' Hws' Hsh | this' ws' sh d' Hws' Hsh Hsub]; subst;
    rewrite Hws in Hws'; injection Hws' as <-; rewrite Hsh.
  - exists []. split; [done|]. split; [done|]. split; [|apply Hcount].
    destruct fuel as [|fuel]; [lia|]. simpl. unfold_m. msimpl.
    by rewrite app_nil_r.
  - destruct (Blobs_total w sh d' Hsub) as [inh Hinh].
    exists inh. split; [intros fuel' Hf; apply Hinh; simpl in Hf; lia|].
    split; [done|]. split; [|apply Hcount].
    destruct fuel as [|fuel]; [lia|]. simpl. unfold_m. msimpl.
    rewrite Hinh by lia. done.
Qed.

(** ** Thread pool *)

Lemma int_of_unsigned_small (u : Z) :
  (0 <= u < 2 ^ 31)%Z -> int_of_unsigned u = u.
Proof.
  intros Hu. unfold int_of_unsigned.
  rewrite Z.mod_small by lia.
  destruct (Z.ltb_spec u (2 ^ 31)%Z); [done|lia].
Qed.

Lemma GetThreadPool_existing (w : World) (this : addr) (ws : Workspace) (p : addr) :
  workspaces w !! this = Some ws ->
  thread_pool_ ws = Some p ->
  GetThreadPool this w = (Ret (Some p), w).
Proof. intros Hws Hp. unfold_m. msimpl. done. Qed.

(** C8.  On a workspace without a pool, [GetThreadPool] builds one whose
    thread count follows the policy: with the cap applied, the detected
    count [n] for [n <= 3], 3 for [4 <= n <= 5] and [n / 2] for [n > 5];
    without the cap, [n].  Every later call on a workspace that still holds
    that pool returns it and changes nothing. *)
Theorem GetThreadPool_sizing (w : World) (this : addr) (ws : Workspace) :
  workspaces w !! this = Some ws ->
  thread_pool_ ws = None ->
  let n := int_of_unsigned (hardware_concurrency (config w)) in
  ((0 <= hardware_concurrency (config w) < 2 ^ 31)%Z ->
   n = hardware_concurrency (config w))
  /\ exists p w' pool,
      GetThreadPool this w = (Ret (Some p), w')
      /\ pools w' !! p = Some pool
      /\ (applyCap (config w) = true ->
          ((n <= 3)%Z -> pool_numThreads pool = n)
          /\ ((4 <= n <= 5)%Z -> pool_numThreads pool = 3%Z)
          /\ ((5 < n)%Z -> pool_numThreads pool = (n / 2)%Z))
      /\ (applyCap (config w) = false -> pool_numThreads pool = n)
      /\ GetThreadPool this w' = (Ret (Some p), w')
      /\ forall w2 ws2,
          workspaces w2 !! this = Some ws2 ->
          thread_pool_ ws2 = Some p ->
          GetThreadPool this w2 = (Ret (Some p), w2).
Proof.
  intros Hws Hnone n. split; [apply int_of_unsigned_small|].
  eexists _, _, _. split; [unfold_m; msimpl; reflexivity|].
  split; [msimpl; reflexivity|].
  split.
  { intros Hcap. simpl. fold n. rewrite Hcap. unfold capped_numThreads.
    repeat split; intros Hn.
    - destruct (Z.leb_spec n 3); [done|lia].
    - destruct (Z.leb_spec n 3); [lia|].
      destruct (Z.leb_spec n 5); [done|lia].
    - destruct (Z.leb_spec n 3); [lia|].
      destruct (Z.leb_spec n 5); [lia|].
      apply Z.quot_div_nonneg; lia. }
  split; [intros Hcap; simpl; fold n; by rewrite Hcap|].
  split; [|intros w2 ws2; apply GetThreadPool_existing].
  eapply GetThreadPool_existing; msimpl; reflexivity.
Qed.

(** ** Blob size report *)

Lemma Sorted_weaken {A} (R1 R2 : relation A) (l : list A) :
  (forall x y, R1 x y -> R2 x y) -> Sorted R1 l -> Sorted R2 l.
Proof.
  intros HR. induction 1 as [|x l _ IH Hhd]; constructor; [exact IH|].
  destruct Hhd; constructor. by apply HR.
Qed.

Lemma collect_sizes_spec w this ws fuel names cum acc :
  workspaces w !! this = Some ws ->
  (forall s, s ∈ names ->
     exists p, blob_map_ ws !! s = Some p /\ is_Some (blobs w !! p)) ->
  collect_sizes (S fuel) this names cum acc w
  = (Ret (total_capacity (credited (blobs w) ws names) cum,
          acc ++ credited (blobs w) ws names), w).
Proof.
  intros Hws. revert cum acc.
  induction names as [|s rest IH]; intros cum acc Hlive.
  - simpl. unfold_m. by rewrite app_nil_r.
  - destruct (Hlive s) as (p & Hs & obj & Hobj); [apply list_elem_of_here|].
    assert (Hrest : forall s0, s0 ∈ rest ->
              exists p0, blob_map_ ws !! s0 = Some p0 /\ is_Some (blobs w !! p0))
      by (intros s0 Hin; apply Hlive, list_elem_of_further, Hin).
    cbn [collect_sizes]. unfold bind at 1.
    rewrite (GetBlob_local w this ws fuel s p Hws Hs).
    unfold bind at 1. unfold get_blob. rewrite Hobj.
    destruct (GetShapeCallFunction (Blob_meta_id obj)) as [f|] eqn:Hf.
    + assert (Hi : shape_info (blobs w) ws s = Some (f (Blob_GetRaw obj)))
        by (unfold shape_info; rewrite Hs, Hobj, Hf; done).
      rewrite IH by exact Hrest. unfold credited. cbn [omap list_omap].
      rewrite Hi. unfold credited_capacity.
      cbn [total_capacity fold_left fst]. by rewrite <- app_assoc.
    + assert (Hi : shape_info (blobs w) ws s = None)
        by (unfold shape_info; rewrite Hs, Hobj, Hf; done).
      rewrite IH by exact Hrest. unfold credited. cbn [omap list_omap].
      by rewrite Hi.
Qed.

Lemma print_sizes_spec w this ws fuel cum sizes :
  workspaces w !! this = Some ws ->
  (forall sb, sb ∈ sizes -> is_Some (shape_info (blobs w) ws (snd sb))) ->
  print_sizes (S fuel) this cum sizes w
  = (Ret tt,
     set_events (fun l => l ++ map (report_line (blobs w) ws cum) sizes) w).
Proof.
  revert w. induction sizes as [|sb rest IH]; intros w Hws Hok.
  - simpl. unfold_m. f_equal. destruct w; unfold set_events; simpl.
    by rewrite app_nil_r.
  - destruct (Hok sb) as [info Hinfo]; [apply list_elem_of_here|].
    pose proof Hinfo as Hinfo'. unfold shape_info in Hinfo'.
    destruct (blob_map_ ws !! snd sb) as [p|] eqn:Hs; [|done].
    destruct (blobs w !! p) as [obj|] eqn:Hobj; [|done].
    destruct (GetShapeCallFunction (Blob_meta_id obj)) as [f|] eqn:Hf; [|done].
    injection Hinfo' as Hinfo'.
    cbn [print_sizes]. unfold bind at 1.
    rewrite (GetBlob_local w this ws fuel (snd sb) p Hws Hs).
    unfold bind at 1. unfold get_blob. rewrite Hobj. rewrite Hf.
    unfold bind at 1. unfold CHECK.
    rewrite bool_decide_eq_true_2 by eauto.
    unfold bind at 1. unfold emit.
    rewrite IH;
      [|exact Hws|intros sb' Hin; apply Hok, list_elem_of_further, Hin].
    f_equal. unfold set_events; simpl. f_equal.
    rewrite <- app_assoc. simpl. unfold report_line at 2. rewrite Hinfo.
    by rewrite Hinfo'.
Qed.

Lemma printed_sizes_report heap ws cumtotal ranked :
  printed_sizes (report_events heap ws cumtotal ranked) = ranked.
Proof.
  unfold report_events, printed_sizes. cbn [app omap list_omap].
  induction ranked as [|[c s] rest IH]; [done|].
  cbn [map app omap list_omap report_line fst snd]. by rewrite IH.
Qed.

Section Report.

(** What the C++ standard promises of [std::sort] with this comparator:
    the result is a rearrangement of the range in which no element is
    ordered before its predecessor. *)
Hypothesis std_sort_Permutation : forall l, std_sort l ≡ₚ l.
Hypothesis std_sort_Sorted :
  forall l, Sorted (fun a b => blob_size_comp b a = false) (std_sort l).

(** C9 (amended).  [PrintBlobSizes] prints, between the two header lines
    and the total line, one line per local blob that has a shape function.
    The lines are a rearrangement of the pairs collected in encounter
    order, by non-increasing credited capacity; a blob that shares data is
    credited 0 and any other its capacity; when the total is 0 every
    percentage is the literal zero.  Nothing but the trace changes. *)
Theorem PrintBlobSizes_ranking (w : World) (this : addr) (ws : Workspace)
    (fuel : nat) :
  workspaces w !! this = Some ws ->
  (forall s p, blob_map_ ws !! s = Some p -> is_Some (blobs w !! p)) ->
  let encountered := credited (blobs w) ws (keys (blob_map_ ws)) in
  let cumtotal := total_capacity encountered 0%N in
  let ranked := std_sort encountered in
  PrintBlobSizes (S fuel) this w
  = (Ret tt,
     set_events (fun l => l ++ report_events (blobs w) ws cumtotal ranked) w)
  /\ printed_sizes (report_events (blobs w) ws cumtotal ranked) = ranked
  /\ ranked ≡ₚ encountered
  /\ Sorted (fun a b => (fst b <= fst a)%N) ranked
  /\ (forall c s, (c, s) ∈ ranked ->
        exists info, shape_info (blobs w) ws s = Some info
                     /\ c = if shares_data info then 0%N else capacity info)
  /\ (cumtotal = 0%N ->
      forall sb, sb ∈ ranked -> percentage cumtotal (fst sb) = PctZero).
Proof.
  intros Hws Hlive encountered cumtotal ranked.
  assert (Hmem : forall c s, (c, s) ∈ ranked ->
            exists info, shape_info (blobs w) ws s = Some info
                         /\ c = credited_capacity info).
  { intros c s Hin. unfold ranked in Hin.
    rewrite std_sort_Permutation in Hin. unfold encountered, credited in Hin.
    apply list_elem_of_omap in Hin as (s' & _ & Hs').
    destruct (shape_info (blobs w) ws s') as [info|] eqn:Hinfo; [|done].
    injection Hs' as <- <-. eauto. }
  split; [|split; [apply printed_sizes_report
                  |split; [apply std_sort_Permutation|split; [|split]]]].
  - unfold PrintBlobSizes. unfold bind at 1. unfold LocalBlobs.
    unfold bind at 1. unfold get_ws. rewrite Hws. unfold ret at 1.
    unfold bind at 1. rewrite (collect_sizes_spec w this ws fuel _ 0%N [] Hws).
    2:{ intros s Hin. unfold keys in Hin.
        apply list_elem_of_fmap in Hin as ([s' p] & -> & Hin).
        apply elem_of_map_to_list in Hin. simpl. eauto. }
    cbn [fst snd app]. fold encountered. fold cumtotal. fold ranked.
    unfold bind at 1. unfold LOG at 1. unfold emit at 1.
    unfold bind at 1. unfold LOG at 1. unfold emit at 1.
    unfold bind at 1. rewrite (print_sizes_spec _ this ws fuel cumtotal ranked).
    2:{ simpl. done. }
    2:{ intros [c s] Hin. destruct (Hmem c s Hin) as (info & Hi & _).
        simpl. eauto. }
    unfold LOG, emit. f_equal. unfold set_events; simpl. f_equal.
    unfold report_events. rewrite <- !app_assoc. done.
  - eapply Sorted_weaken; [|apply std_sort_Sorted].
    intros a b Hab. unfold blob_size_comp in Hab.
    apply N.ltb_ge in Hab. exact Hab.
  - intros c s Hin. destruct (Hmem c s Hin) as (info & Hi & ->). eauto.
  - intros Hz sb _. unfold percentage. by rewrite Hz.
Qed.

End Report.

(** ** Further properties of the blob store *)

(** X1.  [RemoveBlob] on a name the workspace owns returns true, erases
    that one entry and deallocates its blob; the rest of the workspace,
    every other workspace and the nets stay as they were. *)
Theorem RemoveBlob_removes_local (w : World) (this : addr) (ws : Workspace)
    (n : string) (p : addr) :
  workspaces w !! this = Some ws ->
  blob_map_ ws !! n = Some p ->
  exists w' ws',
    RemoveBlob this n w = (Ret true, w')
    /\ workspaces w' !! this = Some ws'
    /\ blob_map_ ws' = delete n (blob_map_ ws)
    /\ net_map_ ws' = net_map_ ws
    /\ shared_ ws' = shared_ ws
    /\ thread_pool_ ws' = thread_pool_ ws
    /\ blobs w' = delete p (blobs w)
    /\ nets w' = nets w
    /\ forall a, a <> this -> workspaces w' !! a = workspaces w !! a.
Proof.
  intros Hws Hn. eexists _, _.
  split; [unfold_m; msimpl; reflexivity|].
  split; [msimpl; reflexivity|].
  do 6 (split; [reflexivity|]).
  intros a Ha. simpl. by rewrite lookup_insert_ne.
Qed.

(** X2.  [RemoveBlob] on a name the workspace does not own returns false
    and changes no workspace and no blob, whatever the parent chain owns:
    the parent pointer is not even followed. *)
Theorem RemoveBlob_ignores_parent (w : World) (this : addr) (ws : Workspace)
    (n : string) :
  workspaces w !! this = Some ws ->
  blob_map_ ws !! n = None ->
  exists w',
    RemoveBlob this n w = (Ret false, w')
    /\ workspaces w' = workspaces w
    /\ blobs w' = blobs w
    /\ nets w' = nets w
    /\ events w' = events w ++ [Log VLOG1 ("Blob " +:+ n +:+ " not exists. Skipping.")].
Proof.
  intros Hws Hn. eexists.
  split; [unfold_m; msimpl; reflexivity|]. done.
Qed.

(** X3.  In a workspace without a parent, [GetBlob] returns exactly the
    entry of the workspace's own map, null when there is none; a miss adds
    one warning to the log, and nothing else ever changes. *)
Theorem GetBlob_without_parent (w : World) (this : addr) (ws : Workspace)
    (n : string) (fuel : nat) :
  workspaces w !! this = Some ws ->
  shared_ ws = None ->
  exists w',
    GetBlob (S fuel) this n w = (Ret (blob_map_ ws !! n), w')
    /\ workspaces w' = workspaces w
    /\ blobs w' = blobs w
    /\ nets w' = nets w
    /\ events w'
       = events w ++ match blob_map_ ws !! n with
                     | Some _ => []
                     | None => [Log WARNING (blob_not_found n)]
                     end.
Proof.
  intros Hws Hsh. destruct (blob_map_ ws !! n) as [p|] eqn:E.
  - exists w. split; [msimpl; reflexivity|]. by rewrite app_nil_r.
  - eexists. split; [msimpl; reflexivity|]. done.
Qed.

(** X4.  In a workspace without a parent, a blob that was removed is gone:
    after a successful [RemoveBlob], [GetBlob] for the name returns null
    and a second [RemoveBlob] returns false. *)
Theorem RemoveBlob_then_GetBlob (w : World) (this : addr) (ws : Workspace)
    (n : string) (p : addr) (fuel : nat) :
  workspaces w !! this = Some ws ->
  shared_ ws = None ->
  blob_map_ ws !! n = Some p ->
  exists w',
    RemoveBlob this n w = (Ret true, w')
    /\ fst (GetBlob (S fuel) this n w') = Ret None
    /\ fst (RemoveBlob this n w') = Ret false
    /\ blobs w' !! p = None.
Proof.
  intros Hws Hsh Hn. eexists.
  split; [unfold_m; msimpl; reflexivity|].
  split; [msimpl; reflexivity|].
  split; [unfold_m; msimpl; reflexivity|].
  simpl. apply lookup_delete_eq.
Qed.

(** X5.  [LocalBlobs] lists each name the workspace owns once and nothing
    else, and leaves the world alone. *)
Theorem LocalBlobs_exact (w : World) (this : addr) (ws : Workspace) :
  workspaces w !! this = Some ws ->
  exists names,
    LocalBlobs this w = (Ret names, w)
    /\ NoDup names
    /\ length names = size (blob_map_ ws)
    /\ forall x, x ∈ names <-> is_Some (blob_map_ ws !! x).
Proof.
  intros Hws. exists (keys (blob_map_ ws)).
  split; [unfold_m; msimpl; reflexivity|].
  split; [apply keys_NoDup|].
  split; [unfold keys; by rewrite length_fmap, length_map_to_list|].
  intros x. unfold keys. rewrite list_elem_of_fmap. split.
  - intros ([x' v] & -> & Hin). apply elem_of_map_to_list in Hin. simpl. eauto.
  - intros [v Hv]. exists (x, v). split; [done|]. by apply elem_of_map_to_list.
Qed.

(** X6.  [Blobs()] lists exactly the names owned by the workspace or by one
    of its ancestors, and leaves the world alone. *)
Theorem Blobs_lists_the_chain (w : World) (this : addr) (d : nat) :
  parent_chain w this d ->
  exists names,
    Blobs d this w = (Ret names, w)
    /\ forall x,
        x ∈ names
        <-> exists a ws, on_chain w this a /\ workspaces w !! a = Some ws
                         /\ is_Some (blob_map_ ws !! x).
Proof.
  intros Hch.
  assert (Hkeys : forall (ws : Workspace) x,
            x ∈ keys (blob_map_ ws) <-> is_Some (blob_map_ ws !! x)).
  { intros ws x. unfold keys. rewrite list_elem_of_fmap. split.
    - intros ([x' v] & -> & Hin). apply elem_of_map_to_list in Hin. simpl. eauto.
    - intros [v Hv]. exists (x, v). split; [done|]. by apply elem_of_map_to_list. }
  assert (Htrans : forall a b c, on_chain w a b -> on_chain w b c -> on_chain w a c).
  { intros a b c Hab Hbc. induction Hbc; [done|]. eapply on_chain_parent; eauto. }
  induction Hch as [this ws Hws Hsh | this ws sh d Hws Hsh Hsub (inh & Hrun & Hinh)].
  - exists (keys (blob_map_ ws)). split; [simpl; unfold_m; msimpl; reflexivity|].
    intros x. rewrite Hkeys. split.
    + intros Hx. exists this, ws. split; [constructor|done].
    + intros (a & ws' & Hon & Hws' & Hx).
      assert (a = this) as ->; [|congruence].
      clear Hws' Hx. induction Hon as [|a0 ws0 sh0 Hon0 IH Hws0 Hsh0]; [done|].
      subst a0. congruence.
  - exists (keys (blob_map_ ws) ++ inh).
    split; [simpl; unfold_m; msimpl; reflexivity|].
    intros x. rewrite elem_of_app, Hkeys, Hinh. split.
    + intros [Hx | (a & ws' & Hon & Hws' & Hx)].
      * exists this, ws. split; [constructor|done].
      * exists a, ws'. split; [|done].
        apply (Htrans this sh a); [|exact Hon].
        eapply on_chain_parent; [constructor|exact Hws|exact Hsh].
    + intros (a & ws' & Hon & Hws' & Hx).
      assert (Hcases : a = this \/ on_chain w sh a).
      { clear Hws' Hx. induction Hon as [|a0 ws0 sh0 Hon0 IH Hws0 Hsh0]; [by left|].
        right. destruct IH as [-> | IH].
        - assert (sh0 = sh) as -> by congruence. constructor.
        - eapply on_chain_parent; eauto. }
      destruct Hcases as [-> | Hon'].
      * left. congruence.
      * right. eauto.
Qed.

(** ** Further properties of the net registry *)

(** X7.  [DeleteNet] on a registered net erases that one entry and destroys
    the net; blobs, the other members of the workspace and the other
    workspaces stay, and [GetNet] for the name then returns null. *)
Theorem DeleteNet_destroys_net (w : World) (this : addr) (ws : Workspace)
    (n : string) (p : addr) :
  workspaces w !! this = Some ws ->
  net_map_ ws !! n = Some (Some p) ->
  exists w' ws',
    DeleteNet this n w = (Ret tt, w')
    /\ workspaces w' !! this = Some ws'
    /\ net_map_ ws' = delete n (net_map_ ws)
    /\ blob_map_ ws' = blob_map_ ws
    /\ nets w' = delete p (nets w)
    /\ blobs w' = blobs w
    /\ events w' = events w ++ [NetDestroyed p]
    /\ (forall a, a <> this -> workspaces w' !! a = workspaces w !! a)
    /\ GetNet this n w' = (Ret None, w').
Proof.
  intros Hws Hn. eexists _, _.
  split; [unfold_m; msimpl; reflexivity|].
  split; [msimpl; reflexivity|].
  do 5 (split; [reflexivity|]).
  split; [intros a Ha; simpl; by rewrite lookup_insert_ne|].
  unfold_m. msimpl. reflexivity.
Qed.

(** X8.  Nets are looked up in the workspace's own map only.  For a name
    that is not registered there, [GetNet] returns null and [DeleteNet]
    does nothing, both leaving the world exactly as it was, and [RunNet]
    returns false after one error line; the parent is never consulted. *)
Theorem unregistered_net_is_not_found (w : World) (this : addr)
    (ws : Workspace) (n : string) :
  workspaces w !! this = Some ws ->
  net_map_ ws !! n = None ->
  GetNet this n w = (Ret None, w)
  /\ DeleteNet this n w = (Ret tt, w)
  /\ RunNet this n w
     = (Ret false,
        set_events
          (fun l => l ++ [Log ERROR ("Network " +:+ n +:+ " does not exist yet.")])
          w).
Proof.
  intros Hws Hn. repeat split; unfold_m; msimpl; reflexivity.
Qed.

(** X9.  [GetNet] is a pure lookup: it returns the pointer stored under the
    name, null when there is no entry, and never changes the world; the
    [operator[]] it uses never gets to insert an entry. *)
Theorem GetNet_is_pure_lookup (w : World) (this : addr) (ws : Workspace)
    (n : string) :
  workspaces w !! this = Some ws ->
  GetNet this n w = (Ret (default None (net_map_ ws !! n)), w).
Proof.
  intros Hws. destruct (net_map_ ws !! n) as [up|] eqn:E;
    unfold_m; msimpl; reflexivity.
Qed.

(** X10.  When the net factory yields a net for a named definition that is
    not refused, [CreateNet] returns the address of that net, which was not
    allocated before, registers it under the definition's name and leaves
    the entries of all other names alone; [GetNet] then returns the same
    address and [RunNet] runs that net. *)
Theorem CreateNet_registers_net (w : World) (this : addr) (ws : Workspace)
    (net_def : NetDef) (overwrite : bool) (obj : NetBase) (w1 : World) :
  net_factory_keeps_registry ->
  workspaces w !! this = Some ws ->
  has_name net_def = true ->
  net_map_ ws !! name net_def = None \/ overwrite = true ->
  caffe2_CreateNet net_def this (construction_state this net_def w)
  = (Some obj, w1) ->
  exists a w' ws',
    CreateNet this net_def overwrite w = (Ret (Some a), w')
    /\ nets w1 !! a = None
    /\ nets w' !! a = Some obj
    /\ workspaces w' !! this = Some ws'
    /\ net_map_ ws' !! name net_def = Some (Some a)
    /\ (forall n, n <> name net_def -> net_map_ ws' !! n = net_map_ ws !! n)
    /\ GetNet this (name net_def) w' = (Ret (Some a), w')
    /\ RunNet this (name net_def) w'
       = (let '(b, w'') := NetBase_Run obj w' in (Ret b, w'')).
Proof.
  intros Hframe Hws Hhas Hcase Hobj.
  destruct (CreateNet_built w this ws net_def overwrite obj w1 Hframe Hws Hhas
              Hcase Hobj)
    as (w' & ws' & Hrun & Hws' & Hnm' & Hnets' & _).
  exists (fresh (dom (nets w1))), w', ws'.
  assert (Hfresh : nets w1 !! fresh (dom (nets w1)) = None)
    by (apply not_elem_of_dom, is_fresh).
  assert (Hentry : net_map_ ws' !! name net_def = Some (Some (fresh (dom (nets w1)))))
    by (rewrite Hnm'; apply lookup_insert_eq).
  assert (Hobj' : nets w' !! fresh (dom (nets w1)) = Some obj)
    by (rewrite Hnets'; apply lookup_insert_eq).
  split; [exact Hrun|]. split; [exact Hfresh|]. split; [exact Hobj'|].
  split; [exact Hws'|]. split; [exact Hentry|].
  split; [intros n Hne; rewrite Hnm'; by apply lookup_insert_ne|].
  split; unfold_m; msimpl; reflexivity.
Qed.

(** X11.  Registering a net under a new name and deleting it again gives
    back the net map and the net heap as the factory left them: the entry
    and the net are both gone. *)
Theorem CreateNet_then_DeleteNet (w : World) (this : addr) (ws : Workspace)
    (net_def : NetDef) (obj : NetBase) (w1 : World) :
  net_factory_keeps_registry ->
  workspaces w !! this = Some ws ->
  has_name net_def = true ->
  net_map_ ws !! name net_def = None ->
  caffe2_CreateNet net_def this (construction_state this net_def w)
  = (Some obj, w1) ->
  exists a w' w'' ws'',
    CreateNet this net_def false w = (Ret (Some a), w')
    /\ DeleteNet this (name net_def) w' = (Ret tt, w'')
    /\ workspaces w'' !! this = Some ws''
    /\ net_map_ ws'' = net_map_ ws
    /\ nets w'' = nets w1
    /\ GetNet this (name net_def) w'' = (Ret None, w'').
Proof.
  intros Hframe Hws Hhas Habs Hobj.
  destruct (CreateNet_built w this ws net_def false obj w1 Hframe Hws Hhas
              (or_introl Habs) Hobj)
    as (w' & ws' & Hrun & Hws' & Hnm' & Hnets' & _).
  assert (Hfresh : nets w1 !! fresh (dom (nets w1)) = None)
    by (apply not_elem_of_dom, is_fresh).
  assert (Hentry : net_map_ ws' !! name net_def = Some (Some (fresh (dom (nets w1)))))
    by (rewrite Hnm'; apply lookup_insert_eq).
  eexists _, w', _, _. split; [exact Hrun|].
  split; [unfold_m; msimpl; reflexivity|].
  split; [msimpl; reflexivity|].
  split; [simpl; rewrite ?Hnm', delete_insert_eq; by apply delete_id|].
  split; [simpl; rewrite ?Hnets', delete_insert_eq; by apply delete_id|].
  unfold_m. msimpl. reflexivity.
Qed.

Lemma construction_state_nets_others w this ws net_def overwrite :
  workspaces w !! this = Some ws ->
  (forall n up, net_map_ ws !! n = Some up ->
     exists p, up = Some p /\ is_Some (nets w !! p)) ->
  (forall n1 n2 p, net_map_ ws !! n1 = Some (Some p) ->
                   net_map_ ws !! n2 = Some (Some p) -> n1 = n2) ->
  net_map_ ws !! name net_def = None \/ overwrite = true ->
  forall n q, n <> name net_def -> net_map_ ws !! n = Some (Some q) ->
              is_Some (nets (construction_state this net_def w) !! q).
Proof.
  intros Hws Hlive Hinj Hcase n q Hne Hq.
  destruct (Hlive n _ Hq) as (q' & [= <-] & Hqlive).
  destruct (net_map_ ws !! name net_def) as [up|] eqn:E.
  - destruct (Hlive _ _ E) as (p & -> & _).
    destruct (construction_state_overwrite w this ws net_def p Hws E) as [Hn _].
    rewrite Hn. rewrite lookup_delete_ne; [exact Hqlive|].
    intros ->. apply Hne. by apply (Hinj n (name net_def) q).
  - unfold construction_state. rewrite Hws, E. exact Hqlive.
Qed.

(** X12.  [CreateNet] keeps the registry sound whatever its outcome
    (returned net, null, or thrown error): if every entry of the net map
    owned a live net and no net was owned under two names before the call,
    the same holds after it. *)
Theorem CreateNet_keeps_registry_owned (w w' : World) (this : addr)
    (net_def : NetDef) (overwrite : bool) (o : Outcome (option addr)) :
  net_factory_keeps_registry ->
  registry_owned w this ->
  CreateNet this net_def overwrite w = (o, w') ->
  registry_owned w' this.
Proof.
  intros Hframe (ws & Hws & Hlive & Hinj) Hrun.
  assert (Hsame : w' = w -> registry_owned w' this)
    by (intros ->; exists ws; auto).
  destruct (has_name net_def) eqn:Hhas.
  2:{ apply Hsame. revert Hrun. unfold CreateNet, CAFFE_ENFORCE. rewrite Hhas.
      unfold_m. by intros [= _ <-]. }
  assert (Hcase : net_map_ ws !! name net_def = None \/ overwrite = true
                  \/ w' = w).
  { destruct (net_map_ ws !! name net_def) as [up|] eqn:E; [|by left].
    destruct overwrite; [by right; left|]. right; right.
    revert Hrun. unfold CreateNet, CAFFE_ENFORCE. rewrite Hhas.
    unfold_m. msimpl. by intros [= _ <-]. }
  destruct Hcase as [Hcase | [Hcase | Heq]]; [| |by apply Hsame].
  all: pose proof (construction_state_nets_others w this ws net_def overwrite
                     Hws Hlive Hinj) as Hothers.
  all: assert (Hc : net_map_ ws !! name net_def = None \/ overwrite = true)
         by auto.
  all: specialize (Hothers Hc).
  all: destruct (caffe2_CreateNet net_def this (construction_state this net_def w))
         as [[obj|] w1] eqn:Hf.
  all: destruct (Hframe _ _ _ _ _ Hf) as (Hn1 & _ & _).
  all: rewrite <- Hn1 in Hothers.
  1,3: destruct (CreateNet_built w this ws net_def overwrite obj w1 Hframe Hws
                   Hhas Hc Hf) as (w2 & ws' & Hrun' & Hws' & Hnm' & Hnets' & _).
  3,4: destruct (CreateNet_null w this ws net_def overwrite w1 Hframe Hws
                   Hhas Hc Hf) as (w2 & ws' & Hrun' & Hws' & Hnm' & Hnets' & _).
  all: rewrite Hrun' in Hrun; injection Hrun as _ <-.
  all: exists ws'; split; [exact Hws'|].
  1,2: assert (Hfresh : nets w1 !! fresh (dom (nets w1)) = None)
         by (apply not_elem_of_dom, is_fresh).
  1,2: split;
    [ intros n up Hn; rewrite Hnm' in Hn;
      apply lookup_insert_Some in Hn as [[_ <-] | [Hne Hn]];
      [ eexists; split; [reflexivity|]; rewrite Hnets', lookup_insert_eq; eauto
      | destruct (Hlive n up Hn) as (q & -> & _);
        exists q; split; [reflexivity|];
        rewrite Hnets'; apply lookup_insert_is_Some'; right;
        apply (Hothers n q); [congruence|exact Hn] ]
    | intros n1 n2 q H1 H2; rewrite Hnm' in H1, H2;
      apply lookup_insert_Some in H1 as [[E1 Q1] | [Hne1 H1]];
      apply lookup_insert_Some in H2 as [[E2 Q2] | [Hne2 H2]];
      [ congruence
      | exfalso; injection Q1 as <-;
        assert (Hq : is_Some (nets w1 !! fresh (dom (nets w1))))
          by (apply (Hothers n2 _); [congruence|exact H2]);
        rewrite Hfresh in Hq; by destruct Hq
      | exfalso; injection Q2 as <-;
        assert (Hq : is_Some (nets w1 !! fresh (dom (nets w1))))
          by (apply (Hothers n1 _); [congruence|exact H1]);
        rewrite Hfresh in Hq; by destruct Hq
      | by apply (Hinj n1 n2 q) ] ].
  all: split;
    [ intros n up Hn; rewrite Hnm' in Hn;
      apply lookup_delete_Some in Hn as [Hne Hn];
      destruct (Hlive n up Hn) as (q & -> & _);
      exists q; split; [reflexivity|];
      rewrite Hnets', <- Hn1; apply (Hothers n q); [congruence|exact Hn]
    | intros n1 n2 q H1 H2; rewrite Hnm' in H1, H2;
      apply lookup_delete_Some in H1 as [_ H1];
      apply lookup_delete_Some in H2 as [_ H2];
      by apply (Hinj n1 n2 q) ].
Qed.

(** X13.  [DeleteNet] keeps the registry sound: deleting a net leaves every
    remaining entry with a live net of its own. *)
Theorem DeleteNet_keeps_registry_owned (w w' : World) (this : addr)
    (n : string) (o : Outcome unit) :
  registry_owned w this ->
  DeleteNet this n w = (o, w') ->
  registry_owned w' this.
Proof.
  intros (ws & Hws & Hlive & Hinj) Hrun.
  destruct (net_map_ ws !! n) as [up|] eqn:E.
  - destruct (Hlive _ _ E) as (p & -> & _).
    revert Hrun. unfold_m. msimpl. intros [= _ <-].
    eexists. split; [msimpl; reflexivity|]. simpl. split.
    + intros n' up Hn'. apply lookup_delete_Some in Hn' as [Hne Hn'].
      destruct (Hlive n' up Hn') as (q & -> & Hq).
      exists q. split; [reflexivity|]. rewrite lookup_delete_ne; [exact Hq|].
      intros ->. apply Hne. by apply (Hinj n n' q).
    + intros n1 n2 q H1 H2.
      apply lookup_delete_Some in H1 as [_ H1].
      apply lookup_delete_Some in H2 as [_ H2].
      by apply (Hinj n1 n2 q).
  - revert Hrun. unfold_m. msimpl. intros [= _ <-]. exists ws. auto.
Qed.

(** ** Further properties of the thread pool *)

(** X14.  The pool built by [GetThreadPool] never has more threads than
    were detected, and has at least one whenever at least one was
    detected; when detection yields 0 the pool is built with 0 threads. *)
Theorem GetThreadPool_thread_bounds (w : World) (this : addr) (ws : Workspace) :
  workspaces w !! this = Some ws ->
  thread_pool_ ws = None ->
  let n := int_of_unsigned (hardware_concurrency (config w)) in
  exists p w' pool,
    GetThreadPool this w = (Ret (Some p), w')
    /\ pools w' !! p = Some pool
    /\ ((1 <= n)%Z -> (1 <= pool_numThreads pool <= n)%Z)
    /\ (hardware_concurrency (config w) = 0%Z -> pool_numThreads pool = 0%Z).
Proof.
  intros Hws Hnone n. eexists _, _, _.
  split; [unfold_m; msimpl; reflexivity|].
  split; [msimpl; reflexivity|].
  simpl. fold n. unfold capped_numThreads. split.
  - intros Hn. destruct (applyCap (config w)); [|lia].
    destruct (Z.leb_spec n 3); [lia|].
    destruct (Z.leb_spec n 5); [lia|].
    rewrite Z.quot_div_nonneg by lia.
    split; [apply Z.div_le_lower_bound; lia|apply Z.div_le_upper_bound; lia].
  - intros Hz. unfold n. rewrite Hz. by destruct (applyCap (config w)).
Qed.

(** X15.  The thread count is monotone in the detected count: more cores
    never give fewer threads, with or without the cap. *)
Theorem capped_numThreads_monotone (cap : bool) (n1 n2 : Z) :
  (n1 <= n2)%Z ->
  (capped_numThreads cap n1 <= capped_numThreads cap n2)%Z.
Proof.
  intros Hle. unfold capped_numThreads. destruct cap; [|exact Hle].
  destruct (Z.leb_spec n1 3), (Z.leb_spec n2 3); try lia;
    destruct (Z.leb_spec n2 5); try lia;
    try (destruct (Z.leb_spec n1 5); try lia);
    rewrite ?Z.quot_div_nonneg by lia;
    try (apply Z.div_le_lower_bound; lia).
  apply Z.div_le_mono; lia.
Qed.

(** X16.  [GetThreadPool] never returns null and touches nothing but the
    pool: the blobs, the nets, the maps and the parent pointer of the
    workspace, and all other workspaces are as before. *)
Theorem GetThreadPool_touches_only_the_pool (w : World) (this : addr)
    (ws : Workspace) :
  workspaces w !! this = Some ws ->
  exists p w' ws',
    GetThreadPool this w = (Ret (Some p), w')
    /\ workspaces w' !! this = Some ws'
    /\ thread_pool_ ws' = Some p
    /\ blob_map_ ws' = blob_map_ ws
    /\ net_map_ ws' = net_map_ ws
    /\ shared_ ws' = shared_ ws
    /\ blobs w' = blobs w
    /\ nets w' = nets w
    /\ forall a, a <> this -> workspaces w' !! a = workspaces w !! a.
Proof.
  intros Hws. destruct (thread_pool_ ws) as [p|] eqn:Hp.
  - exists p, w, ws. split; [unfold_m; msimpl; reflexivity|]. auto 10.
  - eexists _, _, _. split; [unfold_m; msimpl; reflexivity|].
    split; [msimpl; reflexivity|].
    do 6 (split; [reflexivity|]).
    intros a Ha. simpl. by rewrite lookup_insert_ne.
Qed.

(** ** Further properties of the blob size report *)

Lemma total_capacity_no_wrap (sizes : list (N * string)) (c0 : N) :
  (c0 + sum_capacity sizes < 2 ^ 64)%N ->
  total_capacity sizes c0 = (c0 + sum_capacity sizes)%N.
Proof.
  revert c0. induction sizes as [|e rest IH]; intros c0 Hlt; simpl in *.
  - by rewrite N.add_0_r.
  - unfold total_capacity in *. simpl. unfold size_t_add at 2.
    rewrite N.mod_small by lia. rewrite IH by lia. lia.
Qed.

Lemma sum_capacity_Permutation (l1 l2 : list (N * string)) :
  l1 ≡ₚ l2 -> sum_capacity l1 = sum_capacity l2.
Proof. induction 1; simpl; lia. Qed.

Lemma sum_capacity_bounds (l : list (N * string)) (e : N * string) :
  e ∈ l -> (fst e <= sum_capacity l)%N.
Proof.
  induction l as [|x l IH]; intros Hin; [by apply not_elem_of_nil in Hin|].
  apply elem_of_cons in Hin as [-> | Hin]; simpl; [lia|].
  specialize (IH Hin). lia.
Qed.

Lemma credited_names heap ws names :
  (credited heap ws names).*2
  = filter (fun s => is_Some (shape_info heap ws s)) names.
Proof.
  induction names as [|s rest IH]; [done|].
  unfold credited in *. cbn [omap list_omap]. rewrite filter_cons.
  destruct (shape_info heap ws s) as [info|] eqn:E.
  - rewrite decide_True by eauto. cbn [fmap list_fmap snd]. f_equal. exact IH.
  - rewrite decide_False by (by intros [? ?]). exact IH.
Qed.

Section ReportContents.

(** Only the first half of the contract of [std::sort] is needed here. *)
Hypothesis std_sort_Permutation : forall l, std_sort l ≡ₚ l.

Lemma PrintBlobSizes_run (w : World) (this : addr) (ws : Workspace) (fuel : nat) :
  workspaces w !! this = Some ws ->
  (forall s p, blob_map_ ws !! s = Some p -> is_Some (blobs w !! p)) ->
  PrintBlobSizes (S fuel) this w
  = (Ret tt,
     set_events
       (fun l => l ++ report_events (blobs w) ws
                        (total_capacity (credited (blobs w) ws (keys (blob_map_ ws))) 0%N)
                        (std_sort (credited (blobs w) ws (keys (blob_map_ ws)))))
       w).
Proof.
  intros Hws Hlive.
  unfold PrintBlobSizes. unfold bind at 1. unfold LocalBlobs.
  unfold bind at 1. unfold get_ws. rewrite Hws. unfold ret at 1.
  unfold bind at 1. rewrite (collect_sizes_spec w this ws fuel _ 0%N [] Hws).
  2:{ intros s Hin. unfold keys in Hin.
      apply list_elem_of_fmap in Hin as ([s' p] & -> & Hin).
      apply elem_of_map_to_list in Hin. simpl. eauto. }
  cbn [fst snd app].
  unfold bind at 1. unfold LOG at 1. unfold emit at 1.
  unfold bind at 1. unfold LOG at 1. unfold emit at 1.
  unfold bind at 1. rewrite (print_sizes_spec _ this ws fuel).
  2:{ simpl. done. }
  2:{ intros [c s] Hin. rewrite std_sort_Permutation in Hin.
      unfold credited in Hin.
      apply list_elem_of_omap in Hin as (s' & _ & Hs').
      destruct (shape_info (blobs w) ws s') as [info|] eqn:Hinfo; [|done].
      injection Hs' as <- <-. simpl. rewrite Hinfo. eauto. }
  unfold LOG, emit. f_equal. unfold set_events; simpl. f_equal.
  unfold report_events. rewrite <- !app_assoc. done.
Qed.

(** X17.  As long as the capacities do not add up to 2^64 or more, the
    total that [PrintBlobSizes] prints is the sum of the capacities in the
    lines above it, and no line shows more than the total. *)
Theorem PrintBlobSizes_total_is_sum (w : World) (this : addr) (ws : Workspace)
    (fuel : nat) :
  workspaces w !! this = Some ws ->
  (forall s p, blob_map_ ws !! s = Some p -> is_Some (blobs w !! p)) ->
  (sum_capacity (credited (blobs w) ws (keys (blob_map_ ws))) < 2 ^ 64)%N ->
  exists ranked,
    PrintBlobSizes (S fuel) this w
    = (Ret tt,
       set_events
         (fun l => l ++ report_events (blobs w) ws (sum_capacity ranked) ranked) w)
    /\ printed_sizes (report_events (blobs w) ws (sum_capacity ranked) ranked)
       = ranked
    /\ forall sb, sb ∈ ranked -> (fst sb <= sum_capacity ranked)%N.
Proof.
  intros Hws Hlive Hlt.
  exists (std_sort (credited (blobs w) ws (keys (blob_map_ ws)))).
  split.
  - rewrite (PrintBlobSizes_run w this ws fuel Hws Hlive).
    rewrite total_capacity_no_wrap by (rewrite N.add_0_l; exact Hlt).
    rewrite N.add_0_l.
    by rewrite (sum_capacity_Permutation _ _ (std_sort_Permutation _)).
  - split; [apply printed_sizes_report|]. apply sum_capacity_bounds.
Qed.

(** X18.  [PrintBlobSizes] prints one line for each local blob whose type
    has a shape function, and no other line: no such blob is left out or
    printed twice, and blobs without a shape function are skipped. *)
Theorem PrintBlobSizes_lists_shaped_blobs_once (w : World) (this : addr)
    (ws : Workspace) (fuel : nat) :
  workspaces w !! this = Some ws ->
  (forall s p, blob_map_ ws !! s = Some p -> is_Some (blobs w !! p)) ->
  exists cumtotal ranked,
    PrintBlobSizes (S fuel) this w
    = (Ret tt,
       set_events (fun l => l ++ report_events (blobs w) ws cumtotal ranked) w)
    /\ printed_sizes (report_events (blobs w) ws cumtotal ranked) = ranked
    /\ NoDup ranked.*2
    /\ forall s, s ∈ ranked.*2 <-> is_Some (shape_info (blobs w) ws s).
Proof.
  intros Hws Hlive. eexists _, _.
  split; [apply (PrintBlobSizes_run w this ws fuel Hws Hlive)|].
  split; [apply printed_sizes_report|].
  assert (Hperm : (std_sort (credited (blobs w) ws (keys (blob_map_ ws)))).*2
                  ≡ₚ filter (fun s => is_Some (shape_info (blobs w) ws s))
                       (keys (blob_map_ ws)))
    by (rewrite std_sort_Permutation; by rewrite credited_names).
  split.
  - rewrite Hperm. apply NoDup_filter, keys_NoDup.
  - intros s. rewrite Hperm, list_elem_of_filter. split; [tauto|].
    intros Hs. split; [exact Hs|].
    destruct Hs as [info Hinfo]. unfold shape_info in Hinfo.
    destruct (blob_map_ ws !! s) as [p|] eqn:E; [|done].
    unfold keys. apply list_elem_of_fmap. exists (s, p).
    split; [done|]. by apply elem_of_map_to_list.
Qed.

(** X19.  When no local blob has a shape function, in particular in an
    empty workspace, [PrintBlobSizes] prints the two header lines and a
    total of 0, and nothing in between. *)
Theorem PrintBlobSizes_nothing_to_report (w : World) (this : addr)
    (ws : Workspace) (fuel : nat) :
  workspaces w !! this = Some ws ->
  (forall s p, blob_map_ ws !! s = Some p -> is_Some (blobs w !! p)) ->
  (forall s, shape_info (blobs w) ws s = None) ->
  PrintBlobSizes (S fuel) this w
  = (Ret tt,
     set_events
       (fun l => l ++ [Log INFO "---- Workspace blobs: ---- ";
                       Log INFO "name;current shape;capacity bytes;percentage";
                       Log INFO "Total;;0;100%"])
       w).
Proof.
  intros Hws Hlive Hnone.
  rewrite (PrintBlobSizes_run w this ws fuel Hws Hlive).
  assert (Hempty : credited (blobs w) ws (keys (blob_map_ ws)) = []).
  { unfold credited. induction (keys (blob_map_ ws)) as [|s rest IH]; [done|].
    cbn [omap list_omap]. by rewrite Hnone. }
  rewrite Hempty.
  assert (Hsorted : std_sort [] = [])
    by (apply Permutation_nil_r, std_sort_Permutation).
  rewrite Hsorted. reflexivity.
Qed.

End ReportContents.

(** ** Transient nets *)

(** X20.  [RunNetOnce] throws when the net factory yields null.  Otherwise
    it returns what the net's [Run()] returned, and on every such path the
    net it built is destroyed before it returns: its address is free again
    and the last event is its destruction, preceded by an error line when
    [Run()] failed.  The workspaces and blobs are as [Run()] left them. *)
Theorem RunNetOnce_is_transient (w w' : World) (this : addr)
    (net_def : NetDef) (o : Outcome bool) :
  RunNetOnce this net_def w = (o, w') ->
  let wc := set_events (fun l => l ++ [NetConstruct net_def this]) w in
  match caffe2_CreateNet net_def this wc with
  | (None, w1) =>
      o = Throw (EnforceNotMet (could_not_create_msg net_def)) /\ w' = w1
  | (Some obj, w1) =>
      let a := fresh (dom (nets w1)) in
      exists b w2,
        NetBase_Run obj (set_nets (insert a obj) w1) = (b, w2)
        /\ o = Ret b
        /\ nets w' !! a = None
        /\ workspaces w' = workspaces w2
        /\ blobs w' = blobs w2
        /\ events w'
           = events w2
               ++ (if b then []
                   else [Log ERROR ("Error when running network " +:+ name net_def)])
               ++ [NetDestroyed a]
  end.
Proof.
  intros Hrun wc. revert Hrun. unfold RunNetOnce, destroy_net.
  unfold_m. fold wc.
  destruct (caffe2_CreateNet net_def this wc) as [[obj|] w1] eqn:Hf.
  - simpl. rewrite lookup_insert_eq.
    destruct (NetBase_Run obj (set_nets <[fresh (dom (nets w1)):=obj]> w1))
      as [b w2] eqn:Hb.
    destruct b; intros [= <- <-]; [exists true, w2 | exists false, w2];
      (split; [reflexivity|]); (split; [reflexivity|]); simpl;
      (split; [apply lookup_delete_eq|]); (split; [reflexivity|]);
      (split; [reflexivity|]); [reflexivity|by rewrite <- app_assoc].
  - by intros [= <- <-].
Qed.

End Properties.

Section OperatorProperties.

Context {types : ObjectTypes} {ops : OperatorCollaborators}.

(** X21.  [RunOperatorOnce] never throws: it returns true exactly when the
    operator was created and its [Run()] returned true, and then adds
    nothing to what the two collaborators did; in every other case it
    returns false and its last action is an error line. *)
Theorem RunOperatorOnce_never_throws (w : World) (this : addr)
    (op_def : OperatorDef) :
  exists b w',
    RunOperatorOnce this op_def w = (Ret b, w')
    /\ (b = true
        <-> exists op w1, CreateOperator op_def this w = (Some op, w1)
                          /\ OperatorBase_Run op w1 = (true, w'))
    /\ (b = false -> exists msg, last (events w') = Some (Log ERROR msg)).
Proof.
  unfold RunOperatorOnce. unfold_m.
  destruct (CreateOperator op_def this w) as [[op|] w1] eqn:Hc.
  - destruct (OperatorBase_Run op w1) as [[|] w2] eqn:Hr.
    + exists true, w2. split; [reflexivity|]. split; [|done].
      split; [eauto|done].
    + eexists false, _. split; [reflexivity|]. split.
      * split; [done|]. intros (op' & w1' & [= <- <-] & Hr').
        rewrite Hr in Hr'. discriminate.
      * intros _. eexists. simpl. apply last_snoc.
  - eexists false, _. split; [reflexivity|]. split.
    + split; [done|]. intros (op' & w1' & [=] & _).
    + intros _. eexists. simpl. apply last_snoc.
Qed.

End OperatorProperties.

Lemma capacity_ge_total : Total Sample.capacity_ge.
Proof. intros a b. unfold Sample.capacity_ge. lia. Qed.

Lemma stable_sort_Permutation l : Sample.stable_sort l ≡ₚ l.
Proof. apply (@merge_sort_Permutation _ Sample.capacity_ge Sample.capacity_ge_dec). Qed.

Lemma capacity_ge_comp a b :
  Sample.capacity_ge a b -> blob_size_comp b a = false.
Proof. unfold Sample.capacity_ge, blob_size_comp. apply N.ltb_ge. Qed.

Lemma stable_sort_Sorted l :
  Sorted (fun a b => blob_size_comp b a = false) (Sample.stable_sort l).
Proof.
  eapply Sorted_weaken; [apply capacity_ge_comp|].
  apply (@Sorted_merge_sort _ Sample.capacity_ge Sample.capacity_ge_dec capacity_ge_total).
Qed.

Lemma sample_factory_keeps_registry (sort : list (N * string) -> list (N * string)) :
  @net_factory_keeps_registry Sample.types (Sample.collaborators sort).
Proof.
  intros net_def this w r w' Hcall. injection Hcall as _ <-.
  split; [reflexivity|]. split; [eauto|].
  exists []. by rewrite app_nil_r.
Qed.

(** Creating [n] again without [overwrite] is refused and [n] is still
    the net at address 20. *)
Lemma CreateNet_refuses_overwrite_witness :
  sample_CreateNet 1 (Sample.net_n "dag") false Sample.w0
  = (Throw (EnforceNotMet (refuse_msg "n")), Sample.w0)
  /\ sample_GetNet 1 "n" Sample.w0 = (Ret (Some 20), Sample.w0).
Proof.
  destruct (@CreateNet_refuses_overwrite Sample.types Sample.stable Sample.w0 1
              Sample.parent_ws (Sample.net_n "dag") "n" 20 "simple")
    as (w' & Hthrow & -> & Hget & _); [reflexivity..|].
  split; [exact Hthrow|exact Hget].
Defined.

(** Overwriting [n] with a net of type dag: net 20 is destroyed before the
    constructor is called. *)
Lemma CreateNet_destroys_before_constructing_witness :
  sample_nets (@construction_state Sample.types 1 (Sample.net_n "dag") Sample.w0)
    !! 20 = None
  /\ exists r w' tail,
      sample_CreateNet 1 (Sample.net_n "dag") true Sample.w0 = (Ret r, w')
      /\ sample_events w'
         = [Log VLOG1 "Deleting existing network of the same name.";
            NetDestroyed 20;
            Log VLOG1 "Initializing network n";
            NetConstruct (Sample.net_n "dag") 1] ++ tail.
Proof.
  destruct (@CreateNet_destroys_before_constructing Sample.types Sample.stable
              Sample.w0 1 Sample.parent_ws (Sample.net_n "dag") "n" 20)
    as (Hgone & _ & Hev & r & w' & tail & Hrun & Hev' & _);
    [apply sample_factory_keeps_registry|reflexivity..|].
  split; [exact Hgone|].
  exists r, w', tail. split; [exact Hrun|].
  rewrite Hev', Hev. reflexivity.
Defined.

(** A net of an unregistered type under a new name [m]: nothing is left
    under [m]. *)
Lemma CreateNet_failure_leaves_no_trace_witness :
  exists w',
    sample_CreateNet 1 {| name_ := Some "m"; type_ := Some "bogus" |} false
      Sample.w0 = (Ret None, w')
    /\ sample_GetNet 1 "m" w' = (Ret None, w').
Proof.
  destruct (@CreateNet_failure_leaves_no_trace Sample.types Sample.stable Sample.w0 1 Sample.parent_ws
              {| name_ := Some "m"; type_ := Some "bogus" |} false)
    as (w' & ws' & Hrun & _ & _ & Hget);
    [apply sample_factory_keeps_registry|reflexivity|reflexivity
    |left; reflexivity|reflexivity|].
  exists w'. split; [exact Hrun|exact Hget].
Defined.

(** A definition without a name field. *)
Lemma CreateNet_requires_name_field_witness :
  sample_CreateNet 1 {| name_ := None; type_ := Some "simple" |} false Sample.w0
  = (Throw (EnforceNotMet "Net definition should have a name."), Sample.w0).
Proof.
  apply (@CreateNet_requires_name_field Sample.types Sample.stable Sample.w0 1
           {| name_ := None; type_ := Some "simple" |} false).
  reflexivity.
Defined.

(** C5, as stated, fails: a definition whose name is present and empty
    carries no non-empty name, yet [CreateNet] throws nothing, returns a
    net and registers it under the empty name. *)
Lemma CreateNet_accepts_empty_name :
  name Sample.net_empty_name = ""
  /\ (forall e, fst (sample_CreateNet 1 Sample.net_empty_name false Sample.w0)
                <> Throw e)
  /\ fst (sample_CreateNet 1 Sample.net_empty_name false Sample.w0)
     = Ret (Some 21)
  /\ exists ws',
      sample_workspaces
        (snd (sample_CreateNet 1 Sample.net_empty_name false Sample.w0)) !! 1
      = Some ws'
      /\ net_map_ ws' !! "" = Some (Some 21)
      /\ net_map_ Sample.parent_ws !! "" = None.
Proof.
  split; [reflexivity|].
  split; [intros e He; vm_compute in He; discriminate|].
  split; [vm_compute; reflexivity|].
  eexists. split; [vm_compute; reflexivity|].
  split; vm_compute; reflexivity.
Defined.

(** Overwriting [n] with a net of an unregistered type: net 20 is gone and
    nothing is registered under [n]. *)
Lemma CreateNet_overwrite_failure_loses_old_net_witness :
  exists w',
    sample_CreateNet 1 (Sample.net_n "bogus") true Sample.w0 = (Ret None, w')
    /\ sample_nets w' !! 20 = None
    /\ sample_GetNet 1 "n" w' = (Ret None, w').
Proof.
  destruct (@CreateNet_overwrite_failure_loses_old_net Sample.types Sample.stable Sample.w0 1
              Sample.parent_ws (Sample.net_n "bogus") "n" 20 "simple")
    as (w' & ws' & Hrun & Hgone & _ & _ & _ & Hget & _);
    [apply sample_factory_keeps_registry|reflexivity..|].
  exists w'. split; [exact Hrun|]. split; [exact Hgone|exact Hget].
Defined.

(** The child at address 2 resolves [x] to blob 10 of its parent, before and
    after its own [CreateBlob]. *)
Lemma child_CreateBlob_returns_parent_blob_witness :
  sample_GetBlob 2 2 "x" Sample.w0 = (Ret (Some 10), Sample.w0)
  /\ exists w',
      sample_CreateBlob 2 2 "x" Sample.w0 = (Ret (Some 10), w')
      /\ sample_blobs w' = sample_blobs Sample.w0
      /\ sample_GetBlob 2 2 "x" w' = (Ret (Some 10), w')
      /\ sample_GetBlob 2 1 "x" w' = (Ret (Some 10), w').
Proof.
  destruct (@child_CreateBlob_returns_parent_blob Sample.types Sample.stable
              Sample.w0 2 1 Sample.child_ws Sample.parent_ws "x" 10
              (Sample.tensor [2; 3]%Z false 24%N) 0)
    as (Hget & w' & Hrun & _ & _ & Hblobs & _ & _ & _ & Hget' & _ & _ & Hpar);
    [reflexivity..|].
  split; [exact Hget|]. exists w'. auto.
Defined.

(** The parent at address 1 owns [x] as blob 10 and the child at address 2
    owns [y] only.  [CreateBlob] of [x] on the child returns blob 10, the
    parent's; the child's map is as before, without [x], and the child's
    [GetBlob] returns the parent's blob. *)
Lemma CreateBlob_on_child_makes_no_local_blob :
  let w' := snd (sample_CreateBlob 2 2 "x" Sample.w0) in
  blob_map_ Sample.parent_ws !! "x" = Some 10
  /\ blob_map_ Sample.child_ws !! "x" = None
  /\ fst (sample_CreateBlob 2 2 "x" Sample.w0) = Ret (Some 10)
  /\ sample_events w' = [Log VLOG1 "Blob x already exists. Skipping."]
  /\ sample_workspaces w' !! 2 = Some Sample.child_ws
  /\ sample_LocalBlobs 2 w' = (Ret ["y"], w')
  /\ sample_blobs w' = sample_blobs Sample.w0
  /\ sample_GetBlob 2 2 "x" w' = (Ret (Some 10), w').
Proof. repeat split; vm_compute; reflexivity. Qed.

(** Creating [z] twice in the child, whose chain has two workspaces: the
    first call allocates an empty blob at the free address 12. *)
Lemma CreateBlob_idempotent_witness :
  exists b w1 w2,
    sample_CreateBlob 2 2 "z" Sample.w0 = (Ret (Some b), w1)
    /\ sample_CreateBlob 2 2 "z" w1 = (Ret (Some b), w2)
    /\ sample_blobs w2 = sample_blobs w1
    /\ is_Some (sample_blobs w2 !! b).
Proof.
  destruct (@CreateBlob_idempotent Sample.types Sample.stable Sample.w0 2
              Sample.child_ws "z" 2 2)
    as (b & w1 & ws1 & w2 & H1 & H2 & _ & Hb & _ & _ & _ & _ & Hlive).
  - reflexivity.
  - eapply chain_step; [reflexivity|reflexivity|].
    eapply chain_root; reflexivity.
  - lia.
  - exists b, w1, w2. split; [exact H1|]. split; [exact H2|]. split; [exact Hb|].
    apply Hlive. intros a wsa p Ha Hp.
    assert (Hcases : a = 1 \/ a = 2).
    { destruct (decide (a = 1)) as [|H1']; [by left|].
      destruct (decide (a = 2)) as [|H2']; [by right|].
      exfalso. revert Ha. unfold Sample.w0. simpl.
      rewrite lookup_insert_ne by done. rewrite lookup_singleton_ne by done.
      discriminate. }
    destruct Hcases as [-> | ->]; vm_compute in Ha; injection Ha as <-;
      vm_compute in Hp; discriminate.
Defined.

(** The child lists its own [y] and then the parent's [x]. *)
Lemma Blobs_concatenates_without_dedup_witness :
  sample_Blobs 2 2 Sample.w0 = (Ret (["y"] ++ ["x"]), Sample.w0).
Proof.
  destruct (@Blobs_concatenates_without_dedup Sample.types Sample.w0 2 Sample.child_ws 2 2)
    as (inh & Hinh & _ & Hall & _).
  - reflexivity.
  - eapply chain_step; [reflexivity|reflexivity|].
    eapply chain_root; reflexivity.
  - lia.
  - simpl in Hinh. specialize (Hinh 1 (le_n 1)).
    assert (inh = ["x"]) as -> by (vm_compute in Hinh; congruence).
    exact Hall.
Defined.

(** Eight cores on Android with the cap: four threads. *)
Lemma GetThreadPool_sizing_witness :
  exists p w' pool,
    sample_GetThreadPool 2 Sample.w0 = (Ret (Some p), w')
    /\ sample_pools w' !! p = Some pool
    /\ pool_numThreads pool = 4%Z
    /\ sample_GetThreadPool 2 w' = (Ret (Some p), w').
Proof.
  destruct (@GetThreadPool_sizing Sample.types Sample.w0 2
              Sample.child_ws)
    as (_ & p & w' & pool & Hrun & Hpool & Hcap & _ & Hagain & _);
    [reflexivity..|].
  exists p, w', pool. split; [exact Hrun|]. split; [exact Hpool|].
  split; [|exact Hagain].
  destruct (Hcap eq_refl) as (_ & _ & Hhalf). rewrite Hhalf; [reflexivity|].
  vm_compute. reflexivity.
Defined.

(** The report of a workspace with blobs of 10, 30, 0 (shared) and 60
    bytes, with a sort that keeps ties in order. *)
Lemma PrintBlobSizes_ranking_witness :
  sample_events
    (snd (@PrintBlobSizes Sample.types Sample.stable 1 1 Sample.w_report))
  = [Log INFO "---- Workspace blobs: ---- ";
     Log INFO "name;current shape;capacity bytes;percentage";
     LogBlobSize "d" [3; 20]%Z 60%N (PctOf 60%N 100%N);
     LogBlobSize "b" [5; 6]%Z 30%N (PctOf 30%N 100%N);
     LogBlobSize "a" [10]%Z 10%N (PctOf 10%N 100%N);
     LogBlobSize "c" [50]%Z 0%N (PctOf 0%N 100%N);
     Log INFO "Total;;100;100%"].
Proof.
  destruct (@PrintBlobSizes_ranking Sample.types Sample.stable
              stable_sort_Permutation stable_sort_Sorted
              Sample.w_report 1 Sample.report_ws 0)
    as (Hrun & _).
  - reflexivity.
  - assert (Hall : map_Forall
                     (fun _ p => is_Some (sample_blobs Sample.w_report !! p))
                     (blob_map_ Sample.report_ws))
      by (refine (bool_decide_unpack _ _); vm_compute; exact I).
    exact Hall.
  - rewrite Hrun. vm_compute. reflexivity.
Defined.

(** C9, as stated, fails on seventeen blobs of equal capacity with
    [std::sort] as libstdc++ has it.  The blobs are met in alphabetical
    order and each is credited 16 bytes.  The introsort loop swaps the
    middle element to the front and exchanges the others in pairs from both
    ends, and the insertion sort that follows moves no element past an equal
    one: the lines come out in another order than the blobs were met.  Two
    blobs of equal capacity keep their order, since a range of at most 16
    elements is sorted by insertion alone. *)
Lemma PrintBlobSizes_ties_not_stable :
  let report17 :=
    printed_sizes
      (sample_events
         (snd (@PrintBlobSizes Sample.types Sample.libstdcxx 1 1 Sample.w_ties17))) in
  sample_LocalBlobs 1 Sample.w_ties17 = (Ret Sample.tie_names, Sample.w_ties17)
  /\ @credited Sample.types Sample.libstdcxx (sample_blobs Sample.w_ties17)
       Sample.ties17_ws Sample.tie_names
     = map (fun s => (16%N, s)) Sample.tie_names
  /\ fst (@PrintBlobSizes Sample.types Sample.libstdcxx 1 1 Sample.w_ties17) = Ret tt
  /\ report17
     = map (fun s => (16%N, s))
         ["abaaa"; "baaaa"; "abbbb"; "abbba"; "abbab"; "abbaa"; "ababb"; "ababa";
          "abaab"; "aaaaa"; "aabbb"; "aabba"; "aabab"; "aabaa"; "aaabb"; "aaaba";
          "aaaab"]
  /\ report17.*2 <> Sample.tie_names
  /\ printed_sizes
       (sample_events
          (snd (@PrintBlobSizes Sample.types Sample.libstdcxx 1 1 Sample.w_ties)))
     = [(16%N, "a"); (16%N, "b")].
Proof.
  split; [vm_compute; reflexivity|].
  split; [vm_compute; reflexivity|].
  split; [vm_compute; reflexivity|].
  split; [vm_compute; reflexivity|].
  split; [vm_compute; discriminate|].
  vm_compute; reflexivity.
Qed.

(** * The further properties at concrete inputs *)

Lemma sample_live (w : @World Sample.types) (ws : Workspace) :
  bool_decide (map_Forall (fun _ p => is_Some (sample_blobs w !! p)) (blob_map_ ws))
  = true ->
  forall s p, blob_map_ ws !! s = Some p -> is_Some (sample_blobs w !! p).
Proof. intros Hb. apply bool_decide_eq_true in Hb. exact Hb. Qed.

Lemma sample_registry_owned : @registry_owned Sample.types Sample.w0 1.
Proof.
  exists Sample.parent_ws. split; [reflexivity|]. simpl. split.
  - intros n up Hn. apply lookup_singleton_Some in Hn as [_ <-].
    exists 20. split; [reflexivity|]. eexists; reflexivity.
  - intros n1 n2 p H1 H2.
    apply lookup_singleton_Some in H1 as [<- _].
    apply lookup_singleton_Some in H2 as [<- _]. reflexivity.
Qed.

(** The child removes its blob [y]. *)
Lemma RemoveBlob_removes_local_witness :
  exists w',
    sample_RemoveBlob 2 "y" Sample.w0 = (Ret true, w')
    /\ sample_blobs w' = delete 11 (sample_blobs Sample.w0).
Proof.
  destruct (@RemoveBlob_removes_local Sample.types Sample.w0 2 Sample.child_ws
              "y" 11)
    as (w' & ws' & Hrun & _ & _ & _ & _ & _ & Hblobs & _); [reflexivity..|].
  exists w'. split; [exact Hrun|exact Hblobs].
Defined.

(** The child is asked to remove [x], which only its parent owns. *)
Lemma RemoveBlob_ignores_parent_witness :
  exists w',
    sample_RemoveBlob 2 "x" Sample.w0 = (Ret false, w')
    /\ sample_workspaces w' = sample_workspaces Sample.w0
    /\ sample_blobs w' = sample_blobs Sample.w0.
Proof.
  destruct (@RemoveBlob_ignores_parent Sample.types Sample.w0 2 Sample.child_ws "x")
    as (w' & Hrun & Hws & Hblobs & _); [reflexivity..|].
  exists w'. auto.
Defined.

(** The parent workspace has no blob [zz]. *)
Lemma GetBlob_without_parent_witness :
  exists w',
    sample_GetBlob 1 1 "zz" Sample.w0 = (Ret None, w')
    /\ sample_events w' = [Log WARNING (blob_not_found "zz")].
Proof.
  destruct (@GetBlob_without_parent Sample.types Sample.w0 1 Sample.parent_ws
              "zz" 0)
    as (w' & Hrun & _ & _ & _ & Hev); [reflexivity..|].
  exists w'. split; [exact Hrun|exact Hev].
Defined.

(** The parent workspace removes its blob [x]. *)
Lemma RemoveBlob_then_GetBlob_witness :
  exists w',
    sample_RemoveBlob 1 "x" Sample.w0 = (Ret true, w')
    /\ fst (sample_GetBlob 1 1 "x" w') = Ret None.
Proof.
  destruct (@RemoveBlob_then_GetBlob Sample.types Sample.w0 1 Sample.parent_ws
              "x" 10 0)
    as (w' & Hrun & Hget & _); [reflexivity..|].
  exists w'. split; [exact Hrun|exact Hget].
Defined.

Lemma LocalBlobs_exact_witness :
  exists names,
    sample_LocalBlobs 1 Sample.w_report = (Ret names, Sample.w_report)
    /\ NoDup names /\ length names = 5.
Proof.
  destruct (@LocalBlobs_exact Sample.types Sample.w_report 1 Sample.report_ws)
    as (names & Hrun & Hnd & Hlen & _); [reflexivity|].
  exists names. split; [exact Hrun|]. split; [exact Hnd|].
  rewrite Hlen. vm_compute. reflexivity.
Defined.

Lemma Blobs_lists_the_chain_witness :
  exists names,
    sample_Blobs 2 2 Sample.w0 = (Ret names, Sample.w0)
    /\ ("x" ∈ names
        <-> exists a ws, @on_chain Sample.types Sample.w0 2 a
                         /\ sample_workspaces Sample.w0 !! a = Some ws
                         /\ is_Some (blob_map_ ws !! "x")).
Proof.
  destruct (@Blobs_lists_the_chain Sample.types Sample.w0 2 2)
    as (names & Hrun & Hin).
  - eapply chain_step; [reflexivity|reflexivity|].
    eapply chain_root; reflexivity.
  - exists names. split; [exact Hrun|apply Hin].
Defined.

(** The parent workspace deletes its net [n]. *)
Lemma DeleteNet_destroys_net_witness :
  exists w',
    sample_DeleteNet 1 "n" Sample.w0 = (Ret tt, w')
    /\ sample_nets w' = delete 20 (sample_nets Sample.w0)
    /\ sample_GetNet 1 "n" w' = (Ret None, w').
Proof.
  destruct (@DeleteNet_destroys_net Sample.types Sample.w0 1 Sample.parent_ws
              "n" 20)
    as (w' & ws' & Hrun & _ & _ & _ & Hnets & _ & _ & _ & Hget); [reflexivity..|].
  exists w'. auto.
Defined.

(** The child has no net [n], although its parent has one. *)
Lemma unregistered_net_is_not_found_witness :
  sample_GetNet 2 "n" Sample.w0 = (Ret None, Sample.w0)
  /\ sample_GetNet 1 "n" Sample.w0 = (Ret (Some 20), Sample.w0)
  /\ fst (sample_RunNet 2 "n" Sample.w0) = Ret false.
Proof.
  destruct (@unregistered_net_is_not_found Sample.types Sample.stable Sample.w0 2
              Sample.child_ws "n")
    as (Hget & _ & Hrun); [reflexivity..|].
  split; [exact Hget|]. split; [vm_compute; reflexivity|].
  rewrite Hrun. reflexivity.
Defined.

Lemma GetNet_is_pure_lookup_witness :
  sample_GetNet 1 "n" Sample.w0 = (Ret (Some 20), Sample.w0).
Proof.
  apply (@GetNet_is_pure_lookup Sample.types Sample.w0 1 Sample.parent_ws "n").
  reflexivity.
Defined.

(** A net of type dag is registered under the new name [m]. *)
Lemma CreateNet_registers_net_witness :
  exists a w',
    sample_CreateNet 1 {| name_ := Some "m"; type_ := Some "dag" |} false
      Sample.w0 = (Ret (Some a), w')
    /\ sample_nets w' !! a = Some "dag"
    /\ sample_GetNet 1 "m" w' = (Ret (Some a), w').
Proof.
  destruct (@CreateNet_registers_net Sample.types Sample.stable Sample.w0 1
              Sample.parent_ws {| name_ := Some "m"; type_ := Some "dag" |}
              false "dag"
              (@construction_state Sample.types 1
                 {| name_ := Some "m"; type_ := Some "dag" |} Sample.w0))
    as (a & w' & ws' & Hrun & _ & Hobj & _ & _ & _ & Hget & _);
    [apply sample_factory_keeps_registry|reflexivity|reflexivity
    |left; reflexivity|reflexivity|].
  exists a, w'. auto.
Defined.

Lemma CreateNet_then_DeleteNet_witness :
  exists a w' w'',
    sample_CreateNet 1 {| name_ := Some "m"; type_ := Some "dag" |} false
      Sample.w0 = (Ret (Some a), w')
    /\ sample_DeleteNet 1 "m" w' = (Ret tt, w'')
    /\ sample_GetNet 1 "m" w'' = (Ret None, w'').
Proof.
  destruct (@CreateNet_then_DeleteNet Sample.types Sample.stable Sample.w0 1
              Sample.parent_ws {| name_ := Some "m"; type_ := Some "dag" |}
              "dag"
              (@construction_state Sample.types 1
                 {| name_ := Some "m"; type_ := Some "dag" |} Sample.w0))
    as (a & w' & w'' & ws'' & Hrun & Hdel & _ & _ & _ & Hget);
    [apply sample_factory_keeps_registry|reflexivity..|].
  exists a, w', w''. auto.
Defined.

(** Overwriting [n] keeps the registry sound. *)
Lemma CreateNet_keeps_registry_owned_witness :
  @registry_owned Sample.types
    (snd (sample_CreateNet 1 (Sample.net_n "dag") true Sample.w0)) 1.
Proof.
  apply (@CreateNet_keeps_registry_owned Sample.types Sample.stable Sample.w0
           (snd (sample_CreateNet 1 (Sample.net_n "dag") true Sample.w0)) 1
           (Sample.net_n "dag") true
           (fst (sample_CreateNet 1 (Sample.net_n "dag") true Sample.w0))).
  - apply sample_factory_keeps_registry.
  - apply sample_registry_owned.
  - apply surjective_pairing.
Defined.

Lemma DeleteNet_keeps_registry_owned_witness :
  @registry_owned Sample.types (snd (sample_DeleteNet 1 "n" Sample.w0)) 1.
Proof.
  apply (@DeleteNet_keeps_registry_owned Sample.types Sample.w0
           (snd (sample_DeleteNet 1 "n" Sample.w0)) 1 "n"
           (fst (sample_DeleteNet 1 "n" Sample.w0))).
  - apply sample_registry_owned.
  - apply surjective_pairing.
Defined.

(** Eight cores: between one and eight threads. *)
Lemma GetThreadPool_thread_bounds_witness :
  exists p w' pool,
    sample_GetThreadPool 2 Sample.w0 = (Ret (Some p), w')
    /\ sample_pools w' !! p = Some pool
    /\ (1 <= pool_numThreads pool <= 8)%Z.
Proof.
  destruct (@GetThreadPool_thread_bounds Sample.types Sample.w0 2 Sample.child_ws)
    as (p & w' & pool & Hrun & Hpool & Hb & _); [reflexivity..|].
  exists p, w', pool. split; [exact Hrun|]. split; [exact Hpool|].
  apply Hb. vm_compute. discriminate.
Defined.

Lemma capped_numThreads_monotone_witness :
  (capped_numThreads true 4 <= capped_numThreads true 8)%Z.
Proof. apply capped_numThreads_monotone. lia. Defined.

Lemma GetThreadPool_touches_only_the_pool_witness :
  exists p w',
    sample_GetThreadPool 2 Sample.w0 = (Ret (Some p), w')
    /\ sample_blobs w' = sample_blobs Sample.w0
    /\ sample_nets w' = sample_nets Sample.w0.
Proof.
  destruct (@GetThreadPool_touches_only_the_pool Sample.types Sample.w0 2
              Sample.child_ws)
    as (p & w' & ws' & Hrun & _ & _ & _ & _ & _ & Hb & Hn & _); [reflexivity|].
  exists p, w'. auto.
Defined.

(** The report of 10, 30, 0 (shared) and 60 bytes totals 100. *)
Lemma PrintBlobSizes_total_is_sum_witness :
  exists ranked,
    sample_PrintBlobSizes 1 1 Sample.w_report
    = (Ret tt,
       set_events
         (fun l => l ++ sample_report_events (sample_blobs Sample.w_report)
                          Sample.report_ws (sum_capacity ranked) ranked)
         Sample.w_report)
    /\ forall sb, sb ∈ ranked -> (fst sb <= sum_capacity ranked)%N.
Proof.
  destruct (@PrintBlobSizes_total_is_sum Sample.types Sample.stable
              stable_sort_Permutation Sample.w_report 1 Sample.report_ws 0)
    as (ranked & Hrun & _ & Hle).
  - reflexivity.
  - apply sample_live. vm_compute. reflexivity.
  - vm_compute. reflexivity.
  - exists ranked. split; [exact Hrun|exact Hle].
Defined.

Lemma PrintBlobSizes_lists_shaped_blobs_once_witness :
  exists cumtotal ranked,
    sample_PrintBlobSizes 1 1 Sample.w_report
    = (Ret tt,
       set_events
         (fun l => l ++ sample_report_events (sample_blobs Sample.w_report)
                          Sample.report_ws cumtotal ranked)
         Sample.w_report)
    /\ NoDup ranked.*2
    /\ "e" ∉ ranked.*2.
Proof.
  destruct (@PrintBlobSizes_lists_shaped_blobs_once Sample.types Sample.stable
              stable_sort_Permutation Sample.w_report 1 Sample.report_ws 0)
    as (cumtotal & ranked & Hrun & _ & Hnd & Hin).
  - reflexivity.
  - apply sample_live. vm_compute. reflexivity.
  - exists cumtotal, ranked. split; [exact Hrun|]. split; [exact Hnd|].
    intros He. apply Hin in He as [info He]. vm_compute in He. discriminate.
Defined.

(** The child workspace holds one empty blob, which has no shape
    function. *)
Lemma PrintBlobSizes_nothing_to_report_witness :
  sample_PrintBlobSizes 1 2 Sample.w0
  = (Ret tt,
     set_events
       (fun l => l ++ [Log INFO "---- Workspace blobs: ---- ";
                       Log INFO "name;current shape;capacity bytes;percentage";
                       Log INFO "Total;;0;100%"])
       Sample.w0).
Proof.
  apply (@PrintBlobSizes_nothing_to_report Sample.types Sample.stable
           stable_sort_Permutation Sample.w0 2 Sample.child_ws 0).
  - reflexivity.
  - apply sample_live. vm_compute. reflexivity.
  - intros s. unfold shape_info. simpl.
    destruct (({["y" := 11]} : gmap string addr) !! s) as [p|] eqn:E; [|reflexivity].
    apply lookup_singleton_Some in E as [_ <-]. reflexivity.
Defined.

(** A net of an unregistered type cannot be run once: the call throws. *)
Lemma RunNetOnce_is_transient_witness :
  fst (sample_RunNetOnce 1 (Sample.net_n "bogus") Sample.w0)
  = Throw (EnforceNotMet (could_not_create_msg (Sample.net_n "bogus")))
  /\ exists a,
      fst (sample_RunNetOnce 1 (Sample.net_n "dag") Sample.w0) = Ret true
      /\ sample_nets (snd (sample_RunNetOnce 1 (Sample.net_n "dag") Sample.w0))
           !! a = None
      /\ NetDestroyed a
         ∈ sample_events (snd (sample_RunNetOnce 1 (Sample.net_n "dag") Sample.w0)).
Proof.
  split.
  - pose proof (@RunNetOnce_is_transient Sample.types Sample.stable Sample.w0 _ 1
                  (Sample.net_n "bogus") _ (surjective_pairing _)) as H.
    exact (proj1 H).
  - pose proof (@RunNetOnce_is_transient Sample.types Sample.stable Sample.w0 _ 1
                  (Sample.net_n "dag") _ (surjective_pairing _)) as H.
    destruct H as (b & w2 & Hb & Ho & Hgone & _ & _ & Hev).
    eexists. split; [rewrite Ho; injection Hb as <- _; reflexivity|].
    split; [exact Hgone|].
    rewrite Hev. rewrite !elem_of_app. right. right. apply list_elem_of_here.
Defined.

(** An operator of an unknown type: false, and no exception. *)
Lemma RunOperatorOnce_unknown_type :
  fst (sample_RunOperatorOnce 1 {| op_type_ := Some "Bogus" |} Sample.w0)
  = Ret false.
Proof.
  destruct (@RunOperatorOnce_never_throws Sample.types Sample.operators
              Sample.w0 1 {| op_type_ := Some "Bogus" |})
    as (b & w' & Hrun & Htrue & _).
  rewrite Hrun. simpl. destruct b; [|reflexivity].
  destruct (proj1 Htrue eq_refl) as (op & w1 & Hc & _).
  vm_compute in Hc. discriminate.
Defined.
